(** * A freelance-marketplace REST backend: contracts, jobs, payments, reports

    Shallow embedding of the route handlers of [app.js] and of
    [utils.js] ([validateDate]).  The handlers are thin glue over an
    object-relational mapper (Sequelize) and a date library (moment); the
    calls they make into these libraries are modelled by the libraries'
    documented contracts, on an in-memory store of three tables.

    Conventions of the model.
    - A JavaScript number is a double.  The model keeps a double by its
      exact value, a rational ([Qc]), together with [NaN], and rounds the
      result of every addition and subtraction to the nearest double
      ([JS.round]).  Sums beyond the largest double (about 1.8e308), which
      JavaScript turns into [Infinity], are outside the model.
    - The database keeps no NaN: a NaN written to a numeric column is
      stored as NULL, and NULL loads as [null], which arithmetic and
      comparisons read as 0.  [JS.NaN] in a stored balance stands for that
      NULL.
    - A table is the list of its rows, in table order.  [Model.findAll]
      resolves to the rows its [where] selects, [Model.findOne] to the
      first of them or to [null]; an [include] with a [where] is an inner
      join, one without is a left join that loads [null] when the
      association is missing.
    - The static [Model.update(values, { where })] rewrites every row the
      [where] selects and resolves to an array holding the number of rows
      it affected; [instance.update(values)] rewrites the row of the
      instance.
    - A handler is a function from the store (and the request) to the
      response it sends and the store it leaves behind; writes reach the
      store in program order. *)

From Stdlib Require Import ZArith QArith Qcanon String Ascii.
From stdpp Require Import base decidable option list numbers strings sorting.

Local Open Scope Z_scope.

(** ** JavaScript numbers *)

Module JS.

(** A number as the handlers see it: a double, kept by its exact value,
    or [NaN], which arises from arithmetic on [undefined]. *)
Inductive number :=
| Num (q : Qc)
| NaN.

(** What a property read can yield: a number, [undefined] when the
    object has no such property, [null] when the column is NULL. *)
Inductive value :=
| Number (n : number)
| Undefined
| Null.

(** [ToNumber]: [undefined] becomes [NaN] and [null] becomes 0. *)
Definition to_number (v : value) : number :=
  match v with
  | Number n => n
  | Undefined => NaN
  | Null => Num 0
  end.

(** The integer nearest to [num / den], the even one of the two when
    [num / den] lies half-way between them. *)
Definition round_half_even (num : Z) (den : positive) : Z :=
  let fl := num / Z.pos den in
  match 2 * (num mod Z.pos den) ?= Z.pos den with
  | Lt => fl
  | Gt => fl + 1
  | Eq => if Z.even fl then fl else fl + 1
  end.

(** The double nearest to the positive rational [n / d].  With [e] the
    binary exponent of [n / d] (the integer with [2 ^ e ≤ n / d < 2 ^ (e + 1)]),
    the doubles around it are the multiples of [2 ^ (e - 52)]: a
    significand of 53 bits.  Below [2 ^ -1022] they are the multiples of
    [2 ^ -1074]. *)
Definition nearest_double (n d : positive) : Q :=
  let e0 := Z.log2 (Z.pos n) - Z.log2 (Z.pos d) in
  let e := if Z.pos n * 2 ^ Z.max 0 (- e0) <? Z.pos d * 2 ^ Z.max 0 e0
           then e0 - 1 else e0 in
  let q := Z.max (e - 52) (-1074) in
  let r := round_half_even (Z.pos n * 2 ^ Z.max 0 (- q))
             (d * Z.to_pos (2 ^ Z.max 0 q)) in
  Qmake (r * 2 ^ Z.max 0 q) (Z.to_pos (2 ^ Z.max 0 (- q))).

(** Rounding to the nearest double, ties to even: what every arithmetic
    operation does to its exact result. *)
Definition round (x : Qc) : Qc :=
  match Qnum x with
  | Z0 => 0%Qc
  | Z.pos n => Q2Qc (nearest_double n (Qden x))
  | Z.neg n => Q2Qc (- nearest_double n (Qden x))
  end.

(** [a > b]: false as soon as one side is [NaN]. *)
Definition gt (a b : number) : bool :=
  match a, b with
  | Num x, Num y => bool_decide (y < x)%Qc
  | _, _ => false
  end.

(** [a + b] and [a - b] on numbers: the exact result, rounded. *)
Definition add (a b : number) : number :=
  match a, b with
  | Num x, Num y => Num (round (x + y))
  | _, _ => NaN
  end.

Definition sub (a b : number) : number :=
  match a, b with
  | Num x, Num y => Num (round (x - y))
  | _, _ => NaN
  end.

(** Errors a handler can catch. *)
Inductive error :=
| TypeError_read_of_null (property : string)
    (* reading [property] of [null] *)
| StorageError (reason : string).
    (* a rejected promise of the persistence layer *)

End JS.

#[global] Instance number_eq_dec : EqDecision JS.number.
Proof. solve_decision. Defined.
#[global] Instance error_eq_dec : EqDecision JS.error.
Proof. solve_decision. Defined.

(** ** The date library *)

Module Moment.

(** The value of an ASCII digit. *)
Definition digit (c : ascii) : option Z :=
  let n := nat_of_ascii c in
  if ((48 <=? n) && (n <=? 57))%nat then Some (Z.of_nat (n - 48)) else None.

(** Strict matching of a numeric token: exactly [n] digits at the head of
    the input (the strict regular expressions are [\d\d] and [\d{4}]). *)
Fixpoint digits (n : nat) (acc : Z) (s : string) : option (Z * string) :=
  match n with
  | O => Some (acc, s)
  | S n' =>
      match s with
      | String c s' =>
          match digit c with
          | Some d => digits n' (10 * acc + d) s'
          | None => None
          end
      | EmptyString => None
      end
  end.

Inductive token := MM | DD | YYYY | Literal (c : ascii).

(** The format string ['MM-DD-YYYY'], tokenised. *)
Definition MM_DD_YYYY : list token :=
  [MM; Literal "-"; DD; Literal "-"; YYYY].

(** The parsed date array: year, month (0-based, as moment keeps it) and
    day of month; a field is [None] until its token is read. *)
Record fields := Fields { YEAR : option Z; MONTH : option Z; DATE : option Z }.

Definition no_fields : fields := Fields None None None.

(** Strict parsing: every token must match at the head of what is left of
    the input (skipped input, an unmatched token or left-over characters
    invalidate a strict parse). *)
Fixpoint parse_strict (fmt : list token) (s : string) (a : fields)
  : option fields :=
  match fmt with
  | [] => match s with EmptyString => Some a | _ => None end
  | MM :: fmt' =>
      '(n, s') ← digits 2 0 s;
      parse_strict fmt' s' (Fields (YEAR a) (Some (n - 1)) (DATE a))
  | DD :: fmt' =>
      '(n, s') ← digits 2 0 s;
      parse_strict fmt' s' (Fields (YEAR a) (MONTH a) (Some n))
  | YYYY :: fmt' =>
      '(n, s') ← digits 4 0 s;
      parse_strict fmt' s' (Fields (Some n) (MONTH a) (DATE a))
  | Literal c :: fmt' =>
      match s with
      | String c' s' =>
          if decide (c' = c) then parse_strict fmt' s' a else None
      | EmptyString => None
      end
  end.

Definition isLeapYear (year : Z) : bool :=
  ((year mod 4 =? 0) && negb (year mod 100 =? 0)) || (year mod 400 =? 0).

(** [daysInMonth(year, month)], [month] 0-based and already in 0..11
    where it is called from [checkOverflow]. *)
Definition daysInMonth (year month : Z) : Z :=
  let modMonth := month mod 12 in
  let year := year + (month - modMonth) / 12 in
  if modMonth =? 1 then (if isLeapYear year then 29 else 28)
  else 31 - ((modMonth mod 7) mod 2).

(** [checkOverflow]: the month and the day of month must be in range. *)
Definition in_range (y m d : Z) : bool :=
  negb ((m <? 0) || (11 <? m)) && negb ((d <? 1) || (daysInMonth y m <? d)).

(** Days from 1970-01-01 to the given civil date ([month] 0-based). *)
Definition days_from_epoch (y m d : Z) : Z :=
  let m := m + 1 in
  let y := if m <=? 2 then y - 1 else y in
  let era := y / 400 in
  let yoe := y - era * 400 in
  let doy := (153 * (if 2 <? m then m - 3 else m + 9) + 2) / 5 + d - 1 in
  let doe := yoe * 365 + yoe / 4 - yoe / 100 + doy in
  era * 146097 + doe - 719468.

(** A moment: a point in time (milliseconds since the epoch; the local
    zone is taken to be UTC), or an invalid date. *)
Inductive t :=
| Valid (millis : Z)
| Invalid.

Definition isValid (m : t) : bool :=
  match m with Valid _ => true | Invalid => false end.

(** [moment(s, ['MM-DD-YYYY'], true)]. *)
Definition strict (s : string) : t :=
  match parse_strict MM_DD_YYYY s no_fields with
  | Some (Fields (Some y) (Some m) (Some d)) =>
      if in_range y m d then Valid (86400000 * days_from_epoch y m d)
      else Invalid
  | _ => Invalid
  end.

End Moment.

#[global] Instance moment_eq_dec : EqDecision Moment.t.
Proof. solve_decision. Defined.

(** [utils.js]: [validateDate]. *)
Definition validateDate (date : string) : bool :=
  Moment.isValid (Moment.strict date).

(** *** What the format means, independently of the parser *)

Module Calendar.

Definition leap (y : Z) : Prop :=
  (y mod 4 = 0 ∧ y mod 100 ≠ 0) ∨ y mod 400 = 0.

#[global] Instance leap_dec y : Decision (leap y).
Proof. unfold leap. apply _. Defined.

(** Number of days of month [m] (1 = January) in year [y]. *)
Definition month_length (y m : Z) : Z :=
  match m with
  | 1 | 3 | 5 | 7 | 8 | 10 | 12 => 31
  | 4 | 6 | 9 | 11 => 30
  | 2 => if decide (leap y) then 29 else 28
  | _ => 0
  end.

Definition valid_date (y m d : Z) : Prop :=
  0 ≤ y ≤ 9999 ∧ 1 ≤ m ≤ 12 ∧ 1 ≤ d ≤ month_length y m.

Definition digit_char (n : Z) : ascii := ascii_of_nat (48 + Z.to_nat n).

(** Zero-padded decimal rendering on two and on four digits. *)
Definition two_digits (n : Z) (rest : string) : string :=
  String (digit_char (n / 10)) (String (digit_char (n mod 10)) rest).

Definition four_digits (n : Z) (rest : string) : string :=
  two_digits (n / 100) (two_digits (n mod 100) rest).

(** The rendering of a date as [MM-DD-YYYY]. *)
Definition render (y m d : Z) : string :=
  two_digits m (String "-" (two_digits d (String "-" (four_digits y EmptyString)))).

End Calendar.


(** ** The data model

    The module [./model] that declares the three entities is not among the
    sources at hand.  The fields below are the ones the handlers read and
    write, with the value sets the specification's data model gives
    them. *)

(** Modelled from the spec: [Profile.type], declared in [./model]; one of
    client, contractor, admin. *)
Module Role.
Inductive t := client | contractor | admin.
End Role.

(** Modelled from the spec: [Contract.status], declared in [./model]; one
    of new, in_progress, terminated. *)
Inductive contract_status := new | in_progress | terminated.

#[global] Instance role_eq_dec : EqDecision Role.t.
Proof. solve_decision. Defined.
#[global] Instance contract_status_eq_dec : EqDecision contract_status.
Proof. solve_decision. Defined.

Module Profile.
(** Modelled from the spec: the Profile entity of [./model]. *)
Record t := mk {
  id : Z;
  firstName : string;
  lastName : string;
  profession : string;
  balance : JS.number;
  type : Role.t
}.

Definition with_balance (v : JS.number) (p : t) : t :=
  mk (id p) (firstName p) (lastName p) (profession p) v (type p).
End Profile.

Module Contract.
(** Modelled from the spec: the Contract entity of [./model], which links
    one client profile to one contractor profile. *)
Record t := mk {
  id : Z;
  status : contract_status;
  ClientId : Z;
  ContractorId : Z
}.
End Contract.

Module Job.
(** Modelled from the spec: the Job entity of [./model], which belongs to
    one contract. *)
Record t := mk {
  id : Z;
  price : Qc;
  paid : bool;
  paymentDate : option Z;
  depositPaid : bool;
  ContractId : Z
}.

Definition with_payment (now : Z) (j : t) : t :=
  mk (id j) (price j) true (Some now) (depositPaid j) (ContractId j).

Definition with_depositPaid (j : t) : t :=
  mk (id j) (price j) (paid j) (paymentDate j) true (ContractId j).
End Job.

#[global] Instance profile_eq_dec : EqDecision Profile.t.
Proof. solve_decision. Defined.
#[global] Instance contract_eq_dec : EqDecision Contract.t.
Proof. solve_decision. Defined.
#[global] Instance job_eq_dec : EqDecision Job.t.
Proof. solve_decision. Defined.

(** The database: three tables. *)
Record Store := mkStore {
  profiles : list Profile.t;
  contracts : list Contract.t;
  jobs : list Job.t
}.

#[global] Instance store_eq_dec : EqDecision Store.
Proof. solve_decision. Defined.

(** ** The object-relational mapper *)

(** The outcome of awaiting a promise. *)
Inductive promise (A : Type) :=
| Resolved (a : A)
| Rejected (e : JS.error).
Arguments Resolved {A} a.
Arguments Rejected {A} e.

(** What [Model.update] resolves to: an array holding the number of
    affected rows, and not the rows. *)
Record update_result := AffectedCount { affected : nat }.

Module Orm.

(** A [belongsTo] association loaded with [include]: the profile with the
    given primary key, [None] ([null]) when there is none. *)
Definition Profile_by_id (s : Store) (pid : Z) : option Profile.t :=
  head (filter (λ p, Profile.id p = pid) (profiles s)).

(** [p.balance] on a profile that a query loaded: the number of the
    column, [null] where the column is NULL. *)
Definition balance (p : Profile.t) : JS.value :=
  match Profile.balance p with
  | JS.Num q => JS.Number (JS.Num q)
  | JS.NaN => JS.Null
  end.

(** The table after [UPDATE Profiles SET balance = v WHERE id = pid]. *)
Definition set_balance (v : JS.number) (pid : Z) (s : Store) : Store :=
  mkStore
    ((λ p, if decide (Profile.id p = pid)
           then Profile.with_balance v p else p) <$> profiles s)
    (contracts s) (jobs s).

(** [Profile.update({ balance: v }, { where: { id: pid } })].

    [rejects_NaN] says whether the persistence layer refuses a balance
    that is not a number (the promise is then rejected) or accepts it, as
    SQLite does, which keeps NULL for it. *)
Definition Profile_update (rejects_NaN : bool) (v : JS.number) (pid : Z)
    (s : Store) : promise (update_result * Store) :=
  match v, rejects_NaN with
  | JS.NaN, true => Rejected (JS.StorageError "NaN is not a valid decimal")
  | _, _ =>
      Resolved
        (AffectedCount (length (filter (λ p, Profile.id p = pid) (profiles s))),
         set_balance v pid s)
  end.

(** The store after an update whose promise nobody awaits: a rejection
    changes nothing. *)
Definition settled (s : Store) (p : promise (update_result * Store)) : Store :=
  match p with
  | Resolved (_, s') => s'
  | Rejected _ => s
  end.

(** [job.update(values)] on the instance with primary key [jid]. *)
Definition Job_update (f : Job.t → Job.t) (jid : Z) (s : Store) : Store :=
  mkStore (profiles s) (contracts s)
    ((λ j, if decide (Job.id j = jid) then f j else j) <$> jobs s).

End Orm.

(** The balance the store holds for the profile [pid]. *)
Definition balance_in (s : Store) (pid : Z) : option JS.number :=
  Profile.balance <$> Orm.Profile_by_id s pid.

(** The sum of the balances of two profiles, where both hold a number. *)
Definition sum_of_balances (s : Store) (a b : Z) : option Qc :=
  match balance_in s a, balance_in s b with
  | Some (JS.Num x), Some (JS.Num y) => Some (x + y)%Qc
  | _, _ => None
  end.

(** A value that is not a number below zero.  [NaN], which stands for
    NULL in a stored balance, is no such number. *)
Definition not_negative (n : JS.number) : Prop :=
  match n with
  | JS.Num q => (0 ≤ q)%Qc
  | JS.NaN => True
  end.

#[global] Instance not_negative_dec n : Decision (not_negative n).
Proof. destruct n; apply _. Defined.

(** The invariant of the balances: none is a number below zero. *)
Definition never_negative (s : Store) : Prop :=
  Forall (λ p, not_negative (Profile.balance p)) (profiles s).

(** Prices are amounts: none is below zero. *)
Definition prices_non_negative (s : Store) : Prop :=
  Forall (λ j, (0 ≤ Job.price j)%Qc) (jobs s).

(** A job as a query with [include] returns it: with its contract and,
    where asked for, the contract's two profiles.  These are copies read
    when the query ran. *)
Record JobRow := mkJobRow {
  row_job : Job.t;
  row_Contract : option Contract.t;
  row_Client : option Profile.t;
  row_Contractor : option Profile.t
}.

(** ** Requests and responses *)

Record client_entry := mkEntry {
  entry_id : Z;
  fullName : string;
  entry_paid : Qc
}.

Inductive body :=
| Message (message : string)
| ErrorMessage (error : JS.error)          (* [{ message: error.message }] *)
| ContractList (rows : list Contract.t)
| JobList (rows : list (Job.t * Contract.t))
| DepositPaid (jobs : nat) (paid : Qc) (totalJobsPaid : nat)
                                           (* with [message: 'Deposit paid'] *)
| Profession (profession : string)
| ClientList (rows : list client_entry)
| NoBody.                                  (* [.end()] *)

Record response := Response { status : Z; body_of : body }.

#[global] Instance client_entry_eq_dec : EqDecision client_entry.
Proof. solve_decision. Defined.
#[global] Instance body_eq_dec : EqDecision body.
Proof. solve_decision. Defined.
#[global] Instance response_eq_dec : EqDecision response.
Proof. solve_decision. Defined.

(** The query string of a reporting request; [limit] is read as the number
    it spells. *)
Record query := mkQuery {
  start : option string;
  end_ : option string;
  limit : option nat
}.

(** Truthiness of a query parameter: present and not the empty string. *)
Definition truthy (p : option string) : bool :=
  match p with
  | Some s => negb (String.eqb s EmptyString)
  | None => false
  end.

(** ['' + p]. *)
Definition to_string (p : option string) : string :=
  match p with
  | Some s => s
  | None => "undefined"
  end.

(** ** The route handlers

    Each handler runs after the [getProfile] and [roleValidation]
    middleware: [actor] is [req.profile]. *)

(** The ownership clause every listing adds to its [where]: [ClientId] for
    a client, [ContractorId] otherwise. *)
Definition owned_by (actor : Profile.t) (c : Contract.t) : Prop :=
  if decide (Profile.type actor = Role.client)
  then Contract.ClientId c = Profile.id actor
  else Contract.ContractorId c = Profile.id actor.

#[global] Instance owned_by_dec actor c : Decision (owned_by actor c).
Proof. unfold owned_by. case_decide; apply _. Defined.

(** [GET /contracts]. *)
Definition get_contracts (actor : Profile.t) (s : Store) : response :=
  Response 200
    (ContractList
       (filter (λ c, Contract.status c ≠ terminated ∧ owned_by actor c)
               (contracts s))).

(** The rows of [Job.findAll] in [GET /jobs/unpaid]: the jobs whose [paid]
    is not true, joined to their contract when it is in progress and
    owned by the actor. *)
Definition unpaid_rows (actor : Profile.t) (s : Store)
  : list (Job.t * Contract.t) :=
  j ← filter (λ j, Job.paid j ≠ true) (jobs s);
  c ← filter (λ c, Contract.id c = Job.ContractId j
                   ∧ Contract.status c = in_progress
                   ∧ owned_by actor c) (contracts s);
  [(j, c)].

(** [GET /jobs/unpaid]. *)
Definition get_unpaid_jobs (actor : Profile.t) (s : Store) : response :=
  Response 200 (JobList (unpaid_rows actor s)).

(** The [Job.findOne] of the payment: the job with this id under a
    contract whose client is the caller, with the contract's profiles. *)
Definition pay_findOne (actor : Profile.t) (job_id : Z) (s : Store)
  : option JobRow :=
  head (j ← filter (λ j, Job.id j = job_id) (jobs s);
        c ← filter (λ c, Contract.id c = Job.ContractId j
                         ∧ Contract.ClientId c = Profile.id actor)
                   (contracts s);
        [mkJobRow j (Some c)
           (Orm.Profile_by_id s (Contract.ClientId c))
           (Orm.Profile_by_id s (Contract.ContractorId c))]).

(** [POST /jobs/:job_id/pay], at time [now].

    The callback reads [job.Contract.Client] before it tests [!job]: when
    [findOne] resolves to [null] that read throws, the handler's [catch]
    answers with the error's message, and the ['No Job found'] branch is
    never reached.  The three updates are not awaited: the response is
    sent whatever becomes of them. *)
Definition pay (rejects_NaN : bool) (actor : Profile.t) (job_id now : Z)
    (s : Store) : response * Store :=
  match pay_findOne actor job_id s with
  | None =>
      (Response 400 (ErrorMessage (JS.TypeError_read_of_null "Contract")), s)
  | Some job =>
      let client := row_Client job in
      let contractor := row_Contractor job in
      let price := JS.Num (Job.price (row_job job)) in
      if Job.paid (row_job job)
      then (Response 400 (Message "Job already paid"), s)
      else
        match client with
        | None =>
            (Response 400 (ErrorMessage (JS.TypeError_read_of_null "balance")), s)
        | Some client =>
            if JS.gt price (JS.to_number (Orm.balance client))
            then (Response 400 (Message "Insufficient funds"), s)
            else
              match contractor with
              | None =>
                  (Response 400
                     (ErrorMessage (JS.TypeError_read_of_null "balance")), s)
              | Some contractor =>
                  let s1 := Orm.settled s
                    (Orm.Profile_update rejects_NaN
                       (JS.add (JS.to_number (Orm.balance contractor)) price)
                       (Profile.id contractor) s) in
                  let s2 := Orm.settled s1
                    (Orm.Profile_update rejects_NaN
                       (JS.sub (JS.to_number (Orm.balance client)) price)
                       (Profile.id actor) s1) in
                  let s3 := Orm.Job_update (Job.with_payment now)
                              (Job.id (row_job job)) s2 in
                  (Response 200 (Message "Paid successfully"), s3)
              end
        end
  end.

(** The [Job.findAll] of the deposit: jobs neither paid nor deposited,
    under the caller's contracts with contractor [userId] that are not
    terminated. *)
Definition deposit_findAll (actor : Profile.t) (userId : Z) (s : Store)
  : list JobRow :=
  j ← filter (λ j, Job.paid j ≠ true ∧ Job.depositPaid j ≠ true) (jobs s);
  c ← filter (λ c, Contract.id c = Job.ContractId j
                   ∧ Contract.ContractorId c = userId
                   ∧ Contract.ClientId c = Profile.id actor
                   ∧ Contract.status c ≠ terminated) (contracts s);
  [mkJobRow j (Some c)
     (Orm.Profile_by_id s (Contract.ClientId c))
     (Orm.Profile_by_id s (Contract.ContractorId c))].

(** The local variable [profile] of the deposit loop: [req.profile] at
    first, then whatever [Profile.update] resolved to. *)
Inductive profile_variable :=
| Instance (p : Profile.t)
| UpdateResult (r : update_result).

(** [profile.balance]: an update result has no such property. *)
Definition balance_of (profile : profile_variable) : JS.value :=
  match profile with
  | Instance p => Orm.balance p
  | UpdateResult _ => JS.Undefined
  end.

(** [(25 / 100) * job.price]: a quarter of a double is a double
    (underflow aside), so the product needs no rounding. *)
Definition depositAmount (job : JobRow) : Qc :=
  (Qc_of_Z 25 / Qc_of_Z 100 * Job.price (row_job job))%Qc.

(** The [for (let job of jobs)] loop; [n] is [jobs.length] of the whole
    result. *)
Fixpoint deposit_loop (rejects_NaN : bool) (actor : Profile.t) (n : nat)
    (jobs : list JobRow) (profile : profile_variable)
    (totalPaid : Qc) (totalJobsPaid : nat) (s : Store) : response * Store :=
  match jobs with
  | [] => (Response 200 (DepositPaid n totalPaid totalJobsPaid), s)
  | job :: rest =>
      let contractor := row_Contractor job in
      let amount := JS.Num (depositAmount job) in
      if JS.gt amount (JS.to_number (balance_of profile))
      then deposit_loop rejects_NaN actor n rest profile
             totalPaid totalJobsPaid s
      else
        match Orm.Profile_update rejects_NaN
                (JS.sub (JS.to_number (balance_of profile)) amount)
                (Profile.id actor) s with
        | Rejected e => (Response 400 (ErrorMessage e), s)
        | Resolved (r, s1) =>
            match contractor with
            | None =>
                (Response 400
                   (ErrorMessage (JS.TypeError_read_of_null "balance")), s1)
            | Some contractor =>
                let s2 := Orm.settled s1
                  (Orm.Profile_update rejects_NaN
                     (JS.add (JS.to_number (Orm.balance contractor)) amount)
                     (Profile.id contractor) s1) in
                let s3 := Orm.Job_update Job.with_depositPaid
                            (Job.id (row_job job)) s2 in
                deposit_loop rejects_NaN actor n rest (UpdateResult r)
                  (JS.round (totalPaid + depositAmount job)) (S totalJobsPaid)
                  s3
            end
        end
  end.

(** [totalPaid] once the deposits of a list of jobs have been added to
    it, one after the other. *)
Definition total_paid (totalPaid : Qc) (rows : list JobRow) : Qc :=
  foldl (λ total job, JS.round (total + depositAmount job)) totalPaid rows.

(** [POST /balances/deposit/:userId]. *)
Definition deposit (rejects_NaN : bool) (actor : Profile.t) (userId : Z)
    (s : Store) : response * Store :=
  let jobs := deposit_findAll actor userId s in
  if decide (length jobs = 0%nat)
  then (Response 400 (Message "No Jobs to pay"), s)
  else deposit_loop rejects_NaN actor (length jobs) jobs (Instance actor)
         0%Qc 0%nat s.

(** A sequence of payments and deposits, each with the profile its
    middleware resolved. *)
Inductive request :=
| Pay (actor : Profile.t) (job_id now : Z)
| Deposit (actor : Profile.t) (userId : Z).

Definition handle (rejects_NaN : bool) (s : Store) (r : request) : Store :=
  match r with
  | Pay actor job_id now => (pay rejects_NaN actor job_id now s).2
  | Deposit actor userId => (deposit rejects_NaN actor userId s).2
  end.

Definition run (rejects_NaN : bool) (rs : list request) (s : Store) : Store :=
  foldl (handle rejects_NaN) s rs.

(** *** Reporting *)

(** [paymentDate BETWEEN start AND end], bounds included, on a column
    that may be NULL.  An [end] that is not a valid date reaches the query
    as the text ['Invalid date'], and every stored date compares below
    it: the rows from [start] on match.  ([start] is valid whenever the
    reports run the query.) *)
Definition between (start end_ : Moment.t) (t : option Z) : Prop :=
  match start, end_, t with
  | Moment.Valid a, Moment.Valid b, Some x => a ≤ x ≤ b
  | Moment.Valid a, Moment.Invalid, Some x => a ≤ x
  | _, _, _ => False
  end.

#[global] Instance between_dec a b t : Decision (between a b t).
Proof. unfold between. destruct a, b, t; apply _. Defined.

(** The rows of the [Job.findAll] of the best-clients report, before its
    [GROUP BY]: the paid jobs with a payment date in range, each with its
    contract and the contract's client. *)
Definition paid_in_range (start end_ : Moment.t) (s : Store) : list JobRow :=
  (λ j,
     let c := head (filter (λ c, Contract.id c = Job.ContractId j)
                           (contracts s)) in
     mkJobRow j c (c ≫= λ c, Orm.Profile_by_id s (Contract.ClientId c)) None)
  <$> filter (λ j, between start end_ (Job.paymentDate j) ∧ Job.paid j = true)
             (jobs s).

(** [SUM(price) AS total ... GROUP BY price]: one row per distinct price,
    carrying the sum of the prices of the group.  The other columns of a
    grouped row are those of one job of the group, here its first. *)
Definition group_by_price (rows : list JobRow) : list (JobRow * Qc) :=
  omap (λ p,
          let group := filter (λ r, Job.price (row_job r) = p) rows in
          (λ r, (r, foldr Qcplus 0%Qc ((Job.price ∘ row_job) <$> group)))
          <$> head group)
       (remove_dups ((Job.price ∘ row_job) <$> rows)).

(** [ORDER BY price DESC]. *)
Definition price_desc (a b : JobRow * Qc) : Prop :=
  (Job.price (row_job b.1) ≤ Job.price (row_job a.1))%Qc.

#[global] Instance price_desc_dec a b : Decision (price_desc a b).
Proof. unfold price_desc. apply _. Defined.

Definition order_by_price_desc (rows : list (JobRow * Qc)) : list (JobRow * Qc) :=
  merge_sort price_desc rows.

(** [jobs.map(job => ...)]: every grouped row must carry its contract and
    the contract's client; reading through a missing one throws. *)
Definition to_entry (row : JobRow * Qc) : promise client_entry :=
  match row_Contract row.1 with
  | None => Rejected (JS.TypeError_read_of_null "dataValues")
  | Some _ =>
      match row_Client row.1 with
      | None => Rejected (JS.TypeError_read_of_null "dataValues")
      | Some client =>
          Resolved
            (mkEntry (Profile.id client)
               (Profile.firstName client +:+ " " +:+ Profile.lastName client)
               row.2)
      end
  end.

Fixpoint to_entries (rows : list (JobRow * Qc)) : promise (list client_entry) :=
  match rows with
  | [] => Resolved []
  | row :: rest =>
      match to_entry row with
      | Rejected e => Rejected e
      | Resolved x =>
          match to_entries rest with
          | Rejected e => Rejected e
          | Resolved xs => Resolved (x :: xs)
          end
      end
  end.

Section Reports.

(** What non-strict parsing makes of a string that does not match the
    format exactly.  The reports read their bounds with
    [moment(s, 'MM-DD-YYYY')]; on a string that matches the format
    exactly both parsing modes read the same date. *)
Variable forgiving : string → Moment.t.

(** [moment(s, 'MM-DD-YYYY')]. *)
Definition moment (s : option string) : Moment.t :=
  match Moment.strict (to_string s) with
  | Moment.Valid t => Moment.Valid t
  | Moment.Invalid => forgiving (to_string s)
  end.

(** The rows the persistence layer answers the [Profile.findAll] of the
    best-profession report with; the aggregation is the store's. *)
Variable profession_rows : Moment.t → Moment.t → Store → list Profile.t.

(** [GET /admin/best-profession].  Both tests of the parameters read
    [req.query.start] twice and [req.query.end] not at all. *)
Definition best_profession (q : query) (s : Store) : response :=
  if truthy (start q) && truthy (start q) then
    if negb (validateDate (to_string (start q)))
       || negb (validateDate (to_string (start q)))
    then Response 400
           (Message "Invalid dates, please use the format MM-DD-YYYY")
    else
      let start := moment (start q) in
      let end_ := moment (end_ q) in
      if negb (Moment.isValid start) || negb (Moment.isValid end_)
      then Response 404 NoBody
      else
        match profession_rows start end_ s with
        | [] => Response 404 NoBody
        | p :: _ => Response 200 (Profession (Profile.profession p))
        end
  else Response 404 NoBody.

(** [GET /admin/best-clients]. *)
Definition best_clients (q : query) (s : Store) : response :=
  if truthy (start q) && truthy (start q) then
    if negb (validateDate (to_string (start q)))
       || negb (validateDate (to_string (start q)))
    then Response 400
           (Message "Invalid dates, please use the format MM-DD-YYYY")
    else
      let start := moment (start q) in
      let end_ := moment (end_ q) in
      let limit := match limit q with Some n => n | None => 2%nat end in
      let jobs :=
        take limit
          (order_by_price_desc (group_by_price (paid_in_range start end_ s))) in
      match to_entries jobs with
      | Resolved entries => Response 200 (ClientList entries)
      | Rejected e => Response 400 (ErrorMessage e)
      end
  else Response 400 (Message "Start / end dates required").

End Reports.

(** ** Sample data *)

Module Sample.

Definition amount (z : Z) : Qc := Qc_of_Z z.

Definition harry : Profile.t :=
  Profile.mk 1 "Harry" "Potter" "Wizard" (JS.Num (amount 40)) Role.client.
Definition ash : Profile.t :=
  Profile.mk 2 "Ash" "Ketchum" "Trainer" (JS.Num (amount 300)) Role.client.
Definition linus : Profile.t :=
  Profile.mk 3 "Linus" "Torvalds" "Programmer" (JS.Num (amount 0))
    Role.contractor.

Definition unpaid_job (id : Z) (price : Z) (contract : Z) : Job.t :=
  Job.mk id (amount price) false None false contract.

(** 15 August 2020, in milliseconds since the epoch. *)
Definition mid_august_2020 : Z := 1597449600000.

Definition paid_job (id : Z) (price : Z) (contract : Z) : Job.t :=
  Job.mk id (amount price) true (Some mid_august_2020) false contract.

(** Harry has one contract with Linus and three open jobs of 100 each. *)
Definition three_jobs : Store :=
  mkStore [harry; ash; linus]
    [Contract.mk 1 in_progress 1 3]
    [unpaid_job 1 100 1; unpaid_job 2 100 1; unpaid_job 3 100 1].

(** The same contract with two open jobs of 40 each: both deposits of 10
    are well within Harry's 40. *)
Definition two_jobs : Store :=
  mkStore [harry; ash; linus]
    [Contract.mk 1 in_progress 1 3]
    [unpaid_job 1 40 1; unpaid_job 2 40 1].

(** One open job of 30 under Harry's contract. *)
Definition one_job : Store :=
  mkStore [harry; ash; linus]
    [Contract.mk 1 in_progress 1 3]
    [unpaid_job 1 30 1].

(** One open job of 200: its deposit of 50 exceeds Harry's 40. *)
Definition costly_job : Store :=
  mkStore [harry; ash; linus]
    [Contract.mk 1 in_progress 1 3]
    [unpaid_job 1 200 1].

(** Harry paid two jobs of 250 in August 2020 (500 in all), Ash one job
    of 300. *)
Definition year_2020 : Store :=
  mkStore [harry; ash; linus]
    [Contract.mk 1 in_progress 1 3; Contract.mk 2 in_progress 2 3]
    [paid_job 1 250 1; paid_job 2 250 1; paid_job 3 300 2].

Definition year_2020_query : query :=
  mkQuery (Some "01-01-2020") (Some "12-31-2020") (Some 1%nat).

End Sample.

(** ** Contract by id *)

(** What [GET /contracts/:id] sends: the contract, or a message. *)
Inductive contract_body :=
| ContractJson (contract : Contract.t)
| ContractMessage (message : string).

(** [GET /contracts/:id]: [Contract.findOne] with the id of the path and
    the ownership clause of the listings. *)
Definition get_contract (actor : Profile.t) (id : Z) (s : Store)
  : Z * contract_body :=
  match head (filter (λ c, Contract.id c = id ∧ owned_by actor c)
                     (contracts s)) with
  | None => (400, ContractMessage "No contract found")
  | Some contract => (200, ContractJson contract)
  end.

(** The store with the status of every contract replaced. *)
Definition with_statuses (g : Contract.t → contract_status) (s : Store) : Store :=
  mkStore (profiles s)
    ((λ c, Contract.mk (Contract.id c) (g c) (Contract.ClientId c)
             (Contract.ContractorId c)) <$> contracts s)
    (jobs s).

(** What the handlers leave of a job: its id, price and contract never
    change, and a flag that is set stays set. *)
Definition job_evolves (j j' : Job.t) : Prop :=
  Job.id j' = Job.id j
  ∧ Job.price j' = Job.price j
  ∧ Job.ContractId j' = Job.ContractId j
  ∧ (Job.paid j = true → Job.paid j' = true)
  ∧ (Job.depositPaid j = true → Job.depositPaid j' = true).

(** What the handlers leave of a profile: everything but the balance. *)
Definition profile_evolves (p p' : Profile.t) : Prop :=
  Profile.id p' = Profile.id p
  ∧ Profile.firstName p' = Profile.firstName p
  ∧ Profile.lastName p' = Profile.lastName p
  ∧ Profile.profession p' = Profile.profession p
  ∧ Profile.type p' = Profile.type p.

(** What the handlers leave of the store: the contracts, and the rows of
    the two other tables, one for one. *)
Definition store_evolves (s s' : Store) : Prop :=
  contracts s' = contracts s
  ∧ Forall2 job_evolves (jobs s) (jobs s')
  ∧ Forall2 profile_evolves (profiles s) (profiles s').

(** ** More sample data *)

Module Ledger.

(** Harry's contract with Linus is terminated; it holds one open job. *)
Definition terminated_contract : Store :=
  mkStore [Sample.harry; Sample.ash; Sample.linus]
    [Contract.mk 1 terminated 1 3]
    [Sample.unpaid_job 1 30 1].

(** Harry has 100 and two open jobs of 40 and 80 with Linus. *)
Definition rich_harry : Profile.t :=
  Profile.mk 1 "Harry" "Potter" "Wizard" (JS.Num (Sample.amount 100)) Role.client.

Definition two_prices : Store :=
  mkStore [rich_harry; Sample.ash; Sample.linus]
    [Contract.mk 1 in_progress 1 3]
    [Sample.unpaid_job 1 40 1; Sample.unpaid_job 2 80 1].

(** A parser that finds no date in anything that is not in the format. *)
Definition no_date (_ : string) : Moment.t := Moment.Invalid.

Definition year_2019_query : query :=
  mkQuery (Some "01-01-2019") (Some "12-31-2019") None.

(** An amount given in cents, as a double: 6 cents is the double nearest
    to 0.06. *)
Definition cents (z : Z) : Qc := JS.round (Qc_of_Z z / Qc_of_Z 100).

(** Ash has 1.00 and one open job of 0.01 with Linus, who has 0.06. *)
Definition ash_with_a_dollar : Profile.t :=
  Profile.mk 2 "Ash" "Ketchum" "Trainer" (JS.Num (cents 100)) Role.client.

Definition small_change : Store :=
  mkStore
    [ash_with_a_dollar;
     Profile.mk 3 "Linus" "Torvalds" "Programmer" (JS.Num (cents 6))
       Role.contractor]
    [Contract.mk 1 in_progress 2 3]
    [Job.mk 1 (cents 1) false None false 1].

(** A contract of Harry with himself, holding one open job of 30. *)
Definition own_contract : Store :=
  mkStore [Sample.harry; Sample.ash; Sample.linus]
    [Contract.mk 1 in_progress 1 1]
    [Sample.unpaid_job 1 30 1].

(** Harry's balance is NULL; he has one open job of 30 with Linus. *)
Definition harry_without_balance : Profile.t :=
  Profile.mk 1 "Harry" "Potter" "Wizard" JS.NaN Role.client.

Definition null_balance : Store :=
  mkStore [harry_without_balance; Sample.linus]
    [Contract.mk 1 in_progress 1 3]
    [Sample.unpaid_job 1 30 1].

End Ledger.

(** * Properties *)

(** ** Date validation *)

Section DateValidation.

Import Moment Calendar.

Local Ltac div_lia := Z.div_mod_to_equations; lia.

Lemma digit_of_digit_char k :
  0 ≤ k ≤ 9 → digit (digit_char k) = Some k.
Proof.
  intros Hk.
  assert (Hcases : k = 0 ∨ k = 1 ∨ k = 2 ∨ k = 3 ∨ k = 4 ∨ k = 5 ∨ k = 6
                   ∨ k = 7 ∨ k = 8 ∨ k = 9) by lia.
  destruct Hcases as [->|[->|[->|[->|[->|[->|[->|[->|[->| ->]]]]]]]]];
    reflexivity.
Qed.

Lemma digit_char_of_digit c d :
  digit c = Some d → 0 ≤ d ≤ 9 ∧ c = digit_char d.
Proof.
  unfold digit, digit_char.
  destruct (_ && _)%nat eqn:Hrange; [|discriminate].
  intros [= <-].
  apply andb_prop in Hrange as [Hlo%Nat.leb_le Hhi%Nat.leb_le].
  split; [lia|].
  rewrite Nat2Z.id.
  replace (48 + (nat_of_ascii c - 48))%nat with (nat_of_ascii c) by lia.
  symmetry. apply ascii_nat_embedding.
Qed.

Lemma digits_two n rest :
  0 ≤ n ≤ 99 → digits 2 0 (two_digits n rest) = Some (n, rest).
Proof.
  intros Hn. unfold two_digits. cbn [digits].
  rewrite !digit_of_digit_char by div_lia.
  do 2 f_equal. div_lia.
Qed.

Lemma digits_four n rest :
  0 ≤ n ≤ 9999 → digits 4 0 (four_digits n rest) = Some (n, rest).
Proof.
  intros Hn. unfold four_digits, two_digits. cbn [digits].
  rewrite !digit_of_digit_char by div_lia.
  do 2 f_equal. div_lia.
Qed.

Lemma digits_two_inv s n rest :
  digits 2 0 s = Some (n, rest) → 0 ≤ n ≤ 99 ∧ s = two_digits n rest.
Proof.
  destruct s as [|c1 [|c2 s]]; cbn [digits]; try discriminate.
  - destruct (digit c1); discriminate.
  - destruct (digit c1) as [d1|] eqn:H1; [|discriminate].
    destruct (digit c2) as [d2|] eqn:H2; [|discriminate].
    intros [= <- <-].
    apply digit_char_of_digit in H1 as [? ->], H2 as [? ->].
    split; [lia|]. unfold two_digits, digit_char.
    repeat f_equal; div_lia.
Qed.

Lemma digits_four_inv s n rest :
  digits 4 0 s = Some (n, rest) → 0 ≤ n ≤ 9999 ∧ s = four_digits n rest.
Proof.
  destruct s as [|c1 [|c2 [|c3 [|c4 s]]]]; cbn [digits]; try discriminate;
    destruct (digit c1) as [d1|] eqn:H1; try discriminate;
    try (destruct (digit c2) as [d2|] eqn:H2; try discriminate);
    try (destruct (digit c3) as [d3|] eqn:H3; try discriminate);
    try (destruct (digit c4) as [d4|] eqn:H4; try discriminate).
  intros [= <- <-].
  apply digit_char_of_digit in H1 as [? ->], H2 as [? ->],
    H3 as [? ->], H4 as [? ->].
  split; [lia|]. unfold four_digits, two_digits.
  unfold digit_char. repeat f_equal; div_lia.
Qed.

Lemma isLeapYear_leap y : isLeapYear y = true ↔ leap y.
Proof.
  unfold isLeapYear, leap.
  rewrite orb_true_iff, andb_true_iff, negb_true_iff,
    !Z.eqb_eq, Z.eqb_neq.
  reflexivity.
Qed.

(** moment's formula for the length of a month agrees with the calendar. *)
Lemma daysInMonth_month_length y m :
  1 ≤ m ≤ 12 → daysInMonth y (m - 1) = month_length y m.
Proof.
  intros Hm.
  assert (Hcases : m = 1 ∨ m = 2 ∨ m = 3 ∨ m = 4 ∨ m = 5 ∨ m = 6 ∨ m = 7
                   ∨ m = 8 ∨ m = 9 ∨ m = 10 ∨ m = 11 ∨ m = 12) by lia.
  destruct Hcases as [->|[->|[->|[->|[->|[->|[->|[->|[->|[->|[->| ->]]]]]]]]]]];
    try reflexivity.
  unfold daysInMonth, month_length.
  change ((2 - 1) mod 12) with 1. change (2 - 1 - 1) with 0.
  change (0 / 12) with 0. change (1 =? 1) with true. cbv iota.
  replace (y + 0) with y by lia.
  destruct (isLeapYear y) eqn:Hleap, (decide (leap y)) as [Hl|Hl];
    try reflexivity.
  - apply isLeapYear_leap in Hleap. contradiction.
  - apply isLeapYear_leap in Hl. congruence.
Qed.

Lemma month_length_le_31 y m : 1 ≤ m ≤ 12 → month_length y m ≤ 31.
Proof.
  intros Hm.
  assert (Hcases : m = 1 ∨ m = 2 ∨ m = 3 ∨ m = 4 ∨ m = 5 ∨ m = 6 ∨ m = 7
                   ∨ m = 8 ∨ m = 9 ∨ m = 10 ∨ m = 11 ∨ m = 12) by lia.
  destruct Hcases as [->|[->|[->|[->|[->|[->|[->|[->|[->|[->|[->| ->]]]]]]]]]]];
    cbn; try case_decide; lia.
Qed.

Lemma in_range_valid y m d :
  0 ≤ y ≤ 9999 →
  in_range y (m - 1) d = true ↔ valid_date y m d.
Proof.
  intros Hy. unfold in_range, valid_date.
  rewrite andb_true_iff, !negb_true_iff, !orb_false_iff, !Z.ltb_ge.
  split.
  - intros [[? ?] [? Hd]].
    rewrite daysInMonth_month_length in Hd by lia. lia.
  - intros (_ & ? & ? & Hd).
    rewrite daysInMonth_month_length by lia. lia.
Qed.

Lemma parse_strict_render y m d :
  0 ≤ y ≤ 9999 → 0 ≤ m ≤ 99 → 0 ≤ d ≤ 99 →
  parse_strict MM_DD_YYYY (render y m d) no_fields
  = Some (Fields (Some y) (Some (m - 1)) (Some d)).
Proof.
  intros Hy Hm Hd. unfold render, MM_DD_YYYY. cbn [parse_strict].
  rewrite digits_two by done. cbn [mbind option_bind].
  case_decide; [|done].
  rewrite digits_two by done. cbn [mbind option_bind].
  case_decide; [|done].
  rewrite digits_four by done. reflexivity.
Qed.

Lemma parse_strict_inv s a :
  parse_strict MM_DD_YYYY s no_fields = Some a →
  ∃ y m d, 0 ≤ y ≤ 9999 ∧ s = render y m d
           ∧ a = Fields (Some y) (Some (m - 1)) (Some d).
Proof.
  unfold MM_DD_YYYY. cbn [parse_strict].
  destruct (digits 2 0 s) as [[m s1]|] eqn:Hm; [|discriminate].
  cbn [mbind option_bind].
  destruct s1 as [|c1 s1]; [discriminate|].
  case_decide as Hc1; [subst c1|discriminate].
  destruct (digits 2 0 s1) as [[d s2]|] eqn:Hd; [|discriminate].
  cbn [mbind option_bind].
  destruct s2 as [|c2 s2]; [discriminate|].
  case_decide as Hc2; [subst c2|discriminate].
  destruct (digits 4 0 s2) as [[y s3]|] eqn:Hy; [|discriminate].
  cbn [mbind option_bind].
  destruct s3; [|discriminate].
  intros [= <-].
  apply digits_two_inv in Hm as [_ ->], Hd as [_ ->].
  apply digits_four_inv in Hy as [? ->].
  exists y, m, d. done.
Qed.

End DateValidation.

(** C9.  [validateDate] accepts exactly the strict [MM-DD-YYYY] renderings
    of valid calendar dates; in particular it refuses ["13-01-2020"]
    (there is no month 13), accepts ["02-29-2020"] (a leap year) and
    refuses ["02-29-2021"]. *)
Theorem validateDate_accepts_exactly_valid_dates :
  (∀ s, validateDate s = true
        ↔ ∃ y m d, Calendar.valid_date y m d ∧ s = Calendar.render y m d)
  ∧ validateDate "13-01-2020" = false
  ∧ validateDate "02-29-2020" = true
  ∧ validateDate "02-29-2021" = false.
Proof.
  split; [|repeat split; reflexivity].
  intros s. unfold validateDate, Moment.strict. split.
  - destruct (Moment.parse_strict _ _ _) as [a|] eqn:Hparse; [|discriminate].
    apply parse_strict_inv in Hparse as (y & m & d & Hy & -> & ->).
    destruct (Moment.in_range y (m - 1) d) eqn:Hrange; [|discriminate].
    intros _. exists y, m, d. split; [|done].
    by apply in_range_valid.
  - intros (y & m & d & Hvalid & ->).
    assert (Hbounds : 0 ≤ y ≤ 9999 ∧ 0 ≤ m ≤ 99 ∧ 0 ≤ d ≤ 99).
    { destruct Hvalid as (? & Hm & Hd). split; [done|]. split; [lia|].
      pose proof (month_length_le_31 y m Hm). lia. }
    destruct Hbounds as (Hy & Hm & Hd).
    rewrite parse_strict_render by done.
    apply in_range_valid in Hvalid as ->; done.
Qed.

(** ** Listings *)

(** C6.  [GET /contracts] answers 200 with exactly the contracts the actor
    owns (by [ClientId] for a client, by [ContractorId] otherwise) whose
    status is not [terminated], in table order; none of the contracts
    returned is terminated. *)
Theorem get_contracts_owned_and_not_terminated (actor : Profile.t) (s : Store) :
  ∃ rows,
    get_contracts actor s = Response 200 (ContractList rows)
    ∧ (∀ c, c ∈ rows
            ↔ c ∈ contracts s
              ∧ Contract.status c ≠ terminated
              ∧ ((Profile.type actor = Role.client
                  ∧ Contract.ClientId c = Profile.id actor)
                 ∨ (Profile.type actor ≠ Role.client
                    ∧ Contract.ContractorId c = Profile.id actor)))
    ∧ rows `sublist_of` contracts s
    ∧ Forall (λ c, Contract.status c ≠ terminated) rows.
Proof.
  eexists. split; [reflexivity|]. split; [|split].
  - intros c. rewrite list_elem_of_filter. unfold owned_by.
    case_decide; tauto.
  - apply sublist_filter.
  - apply Forall_forall. intros c [[? _] _]%list_elem_of_filter. done.
Qed.

(** C5.  [GET /jobs/unpaid] returns job [J] with its contract [C] if and
    only if [J.paid] is not true, [C] is in progress and the actor is
    [C]'s client (when the actor is a client) or [C]'s contractor
    (otherwise); a job under a contract the actor does not own is never
    returned. *)
Theorem get_unpaid_jobs_exactly (actor : Profile.t) (s : Store) :
  ∃ rows,
    get_unpaid_jobs actor s = Response 200 (JobList rows)
    ∧ ∀ J C, (J, C) ∈ rows
             ↔ J ∈ jobs s ∧ C ∈ contracts s
               ∧ Contract.id C = Job.ContractId J
               ∧ Job.paid J ≠ true
               ∧ Contract.status C = in_progress
               ∧ ((Profile.type actor = Role.client
                   ∧ Contract.ClientId C = Profile.id actor)
                  ∨ (Profile.type actor ≠ Role.client
                     ∧ Contract.ContractorId C = Profile.id actor)).
Proof.
  eexists. split; [reflexivity|].
  intros J C. unfold unpaid_rows.
  rewrite list_elem_of_bind. setoid_rewrite list_elem_of_bind.
  setoid_rewrite list_elem_of_singleton.
  setoid_rewrite list_elem_of_filter.
  unfold owned_by. split.
  - intros (j & (c & [= <- <-] & (? & ? & Hown) & ?) & ? & ?).
    case_decide; tauto.
  - intros (? & ? & ? & ? & ? & Hown).
    exists J. split; [|done]. exists C. split; [done|].
    split; [|done]. case_decide; tauto.
Qed.

(** ** The store under updates *)

Section StoreLemmas.

Lemma head_filter_fmap {A} (P : A → Prop) `{!∀ x, Decision (P x)}
    (f : A → A) (l : list A) :
  (∀ x, P (f x) ↔ P x) →
  head (filter P (f <$> l)) = f <$> head (filter P l).
Proof.
  intros Hf. induction l as [|x l IH]; [done|].
  rewrite fmap_cons, !filter_cons.
  destruct (decide (P (f x))) as [Hfx|Hfx], (decide (P x)) as [Hx|Hx].
  - done.
  - destruct (Hx (proj1 (Hf x) Hfx)).
  - destruct (Hfx (proj2 (Hf x) Hx)).
  - exact IH.
Qed.

Lemma Profile_by_id_Some s pid p :
  Orm.Profile_by_id s pid = Some p → Profile.id p = pid ∧ p ∈ profiles s.
Proof.
  intros Hp%head_Some_elem_of. by apply list_elem_of_filter in Hp.
Qed.

(** Reading a profile back after a balance update. *)
Lemma Profile_by_id_set_balance v pid s q :
  Orm.Profile_by_id (Orm.set_balance v pid s) q
  = (λ p, if decide (q = pid) then Profile.with_balance v p else p)
    <$> Orm.Profile_by_id s q.
Proof.
  unfold Orm.Profile_by_id, Orm.set_balance. cbn [profiles].
  rewrite head_filter_fmap.
  - destruct (head _) as [p|] eqn:Hp; [|done]. cbn.
    apply head_Some_elem_of, list_elem_of_filter in Hp as [<- _].
    done.
  - intros p. by case_decide.
Qed.

Lemma balance_in_set_balance_eq v pid s :
  is_Some (Orm.Profile_by_id s pid) →
  balance_in (Orm.set_balance v pid s) pid = Some v.
Proof.
  intros [p Hp]. unfold balance_in.
  rewrite Profile_by_id_set_balance, Hp. cbn.
  by rewrite decide_True.
Qed.

Lemma balance_in_set_balance_ne v pid s q :
  q ≠ pid → balance_in (Orm.set_balance v pid s) q = balance_in s q.
Proof.
  intros Hne. unfold balance_in.
  rewrite Profile_by_id_set_balance.
  destruct (Orm.Profile_by_id s q); [|done]. cbn.
  by rewrite decide_False.
Qed.

Lemma balance_in_Job_update f jid s q :
  balance_in (Orm.Job_update f jid s) q = balance_in s q.
Proof. reflexivity. Qed.

(** A number is never refused by the persistence layer. *)
Lemma Profile_update_number rejects_NaN x pid s :
  Orm.settled s (Orm.Profile_update rejects_NaN (JS.Num x) pid s)
  = Orm.set_balance (JS.Num x) pid s.
Proof. by destruct rejects_NaN. Qed.

Lemma Job_update_elem_of f jid s j :
  j ∈ jobs (Orm.Job_update f jid s)
  ↔ ∃ j0, j0 ∈ jobs s ∧ j = if decide (Job.id j0 = jid) then f j0 else j0.
Proof.
  unfold Orm.Job_update. cbn [jobs]. rewrite list_elem_of_fmap.
  split; intros (j0 & ? & ?); by exists j0.
Qed.

Lemma set_balance_preserves (P : JS.number → Prop) v pid s :
  P v →
  Forall (λ p, P (Profile.balance p)) (profiles s) →
  Forall (λ p, P (Profile.balance p)) (profiles (Orm.set_balance v pid s)).
Proof.
  intros Hv Hs. unfold Orm.set_balance. cbn [profiles].
  apply Forall_fmap. eapply Forall_impl; [exact Hs|].
  intros p Hp. cbn. by case_decide.
Qed.

End StoreLemmas.

(** ** Rounding *)

Section Rounding.

Lemma round_half_even_nonneg num den :
  0 ≤ num → 0 ≤ JS.round_half_even num den.
Proof.
  intros Hnum. unfold JS.round_half_even.
  assert (0 ≤ num / Z.pos den) by (apply Z.div_pos; lia).
  repeat case_match; lia.
Qed.

Lemma Q2Qc_nonneg (y : Q) : (0 <= y)%Q → (0 ≤ Q2Qc y)%Qc.
Proof.
  intros Hy. unfold Qcle. change (this (Q2Qc y)) with (Qred y).
  by rewrite Qred_correct.
Qed.

(** Rounding never takes a number across zero. *)
Lemma round_nonneg (x : Qc) : (0 ≤ x)%Qc → (0 ≤ JS.round x)%Qc.
Proof.
  intros Hx. unfold JS.round.
  destruct (Qnum x) as [|n|n] eqn:Hn.
  - done.
  - apply Q2Qc_nonneg.
    unfold JS.nearest_double, Qle. cbn [Qnum Qden].
    rewrite Z.mul_0_l, Z.mul_1_r.
    apply Z.mul_nonneg_nonneg; [|apply Z.pow_nonneg; lia].
    apply round_half_even_nonneg.
    apply Z.mul_nonneg_nonneg; [lia|apply Z.pow_nonneg; lia].
  - exfalso. unfold Qcle, Qle in Hx. rewrite Hn in Hx.
    change (Qnum (this 0%Qc)) with 0 in Hx.
    change (Qden (this 0%Qc)) with 1%positive in Hx. lia.
Qed.

(** A balance as arithmetic reads it is a number, 0 for NULL. *)
Lemma to_number_balance p :
  JS.to_number (Orm.balance p)
  = match Profile.balance p with
    | JS.Num q => JS.Num q
    | JS.NaN => JS.Num 0
    end.
Proof. unfold Orm.balance. by destruct (Profile.balance p). Qed.

Lemma to_number_balance_Num p b :
  Profile.balance p = JS.Num b → JS.to_number (Orm.balance p) = JS.Num b.
Proof. intros Hb. by rewrite to_number_balance, Hb. Qed.

End Rounding.

(** ** Paying a job *)

Section Pay.

(** What the query of the payment hands to the callback. *)
Lemma pay_findOne_Some actor job_id s row :
  pay_findOne actor job_id s = Some row →
  ∃ j c,
    j ∈ jobs s ∧ Job.id j = job_id
    ∧ c ∈ contracts s ∧ Contract.id c = Job.ContractId j
    ∧ Contract.ClientId c = Profile.id actor
    ∧ row = mkJobRow j (Some c)
              (Orm.Profile_by_id s (Contract.ClientId c))
              (Orm.Profile_by_id s (Contract.ContractorId c)).
Proof.
  unfold pay_findOne. intros Hrow%head_Some_elem_of.
  apply list_elem_of_bind in Hrow as (j & Hrow & [Hid Hj]%list_elem_of_filter).
  apply list_elem_of_bind in Hrow as (c & Hrow & [[Hc Hown] Hin]%list_elem_of_filter).
  apply list_elem_of_singleton in Hrow.
  by exists j, c.
Qed.

(** No job for the caller: the callback throws before its own test for a
    missing job, and nothing is written. *)
Lemma pay_no_job rejects_NaN actor job_id now s :
  pay_findOne actor job_id s = None →
  pay rejects_NaN actor job_id now s
  = (Response 400 (ErrorMessage (JS.TypeError_read_of_null "Contract")), s).
Proof. intros Hnone. unfold pay. by rewrite Hnone. Qed.

(** A job already paid is refused, and nothing is written. *)
Lemma pay_already_paid rejects_NaN actor job_id now s row :
  pay_findOne actor job_id s = Some row →
  Job.paid (row_job row) = true →
  pay rejects_NaN actor job_id now s
  = (Response 400 (Message "Job already paid"), s).
Proof. intros Hrow Hpaid. unfold pay. by rewrite Hrow, Hpaid. Qed.

(** A price above the client's balance is refused, and nothing is
    written. *)
Lemma pay_insufficient_funds rejects_NaN actor job_id now s row client b :
  pay_findOne actor job_id s = Some row →
  Job.paid (row_job row) = false →
  row_Client row = Some client →
  Profile.balance client = JS.Num b →
  (b < Job.price (row_job row))%Qc →
  pay rejects_NaN actor job_id now s
  = (Response 400 (Message "Insufficient funds"), s).
Proof.
  intros Hrow Hpaid Hclient Hb Hlt. unfold pay.
  rewrite Hrow, Hpaid, Hclient, (to_number_balance_Num _ _ Hb).
  cbn [JS.gt]. by rewrite bool_decide_eq_true_2.
Qed.

(** Whatever the request, the answer is never ['No Job found']. *)
Lemma pay_never_No_Job_found rejects_NaN actor job_id now s :
  body_of (pay rejects_NaN actor job_id now s).1 ≠ Message "No Job found".
Proof.
  unfold pay.
  repeat (case_match; try discriminate).
Qed.

(** Every rejection leaves the store as it was. *)
Lemma pay_rejection_writes_nothing rejects_NaN actor job_id now s :
  status (pay rejects_NaN actor job_id now s).1 ≠ 200 →
  (pay rejects_NaN actor job_id now s).2 = s.
Proof.
  unfold pay.
  repeat (case_match; try done).
Qed.

(** A payment that goes through found its job, unpaid and affordable. *)
Lemma pay_success_inv rejects_NaN actor job_id now s :
  status (pay rejects_NaN actor job_id now s).1 = 200 →
  ∃ row client contractor,
    pay_findOne actor job_id s = Some row
    ∧ row_Client row = Some client
    ∧ row_Contractor row = Some contractor
    ∧ Job.paid (row_job row) = false
    ∧ JS.gt (JS.Num (Job.price (row_job row)))
        (JS.to_number (Orm.balance client)) = false.
Proof.
  unfold pay.
  destruct (pay_findOne actor job_id s) as [row|]; [|done].
  destruct (Job.paid (row_job row)) eqn:Hpaid; [done|].
  destruct (row_Client row) as [client|] eqn:Hclient; [|done].
  destruct (JS.gt _ _) eqn:Hgt; [done|].
  destruct (row_Contractor row) as [contractor|] eqn:Hcontractor; [|done].
  intros _. by exists row, client, contractor.
Qed.

End Pay.

(** C1, as the code has it.  A payment that succeeds (status 200)
    answers ["Paid successfully"]; the job is marked paid and its payment
    date is the time of the request.  With [P] the price of the job, [bc]
    the balance the query loaded for its client and [bk] the one it
    loaded for its contractor, the client's balance becomes the double
    nearest to [bc - P] and, the contractor being another profile than
    the client, the contractor's becomes the double nearest to [bk + P].
    Where neither result needs rounding (whole amounts, for one) the two
    balances move by exactly [P] and their sum is unchanged. *)
Theorem pay_success_moves_the_rounded_price
    rejects_NaN actor job_id now s res s' row client contractor bc bk :
  pay rejects_NaN actor job_id now s = (res, s') →
  status res = 200 →
  pay_findOne actor job_id s = Some row →
  row_Client row = Some client →
  row_Contractor row = Some contractor →
  JS.to_number (Orm.balance client) = JS.Num bc →
  JS.to_number (Orm.balance contractor) = JS.Num bk →
  let P := Job.price (row_job row) in
  res = Response 200 (Message "Paid successfully")
  ∧ Profile.id client = Profile.id actor
  ∧ balance_in s (Profile.id client) = Some (Profile.balance client)
  ∧ balance_in s (Profile.id contractor) = Some (Profile.balance contractor)
  ∧ balance_in s' (Profile.id client) = Some (JS.Num (JS.round (bc - P)))
  ∧ (Profile.id client ≠ Profile.id contractor →
     balance_in s' (Profile.id contractor) = Some (JS.Num (JS.round (bk + P))))
  ∧ (Profile.id client ≠ Profile.id contractor →
     JS.round (bc - P) = (bc - P)%Qc →
     JS.round (bk + P) = (bk + P)%Qc →
     balance_in s' (Profile.id client) = Some (JS.Num (bc - P))
     ∧ balance_in s' (Profile.id contractor) = Some (JS.Num (bk + P))
     ∧ sum_of_balances s' (Profile.id client) (Profile.id contractor)
       = Some (bc + bk)%Qc)
  ∧ Job.with_payment now (row_job row) ∈ jobs s'
  ∧ ∀ j, j ∈ jobs s' → Job.id j = job_id
         → Job.paid j = true ∧ Job.paymentDate j = Some now.
Proof.
  intros Hpay Hstatus Hrow Hclient Hcontractor Hbc Hbk P.
  unfold pay in Hpay.
  rewrite Hrow, Hclient, Hcontractor, Hbc, Hbk in Hpay.
  destruct (Job.paid (row_job row)) eqn:Hpaid;
    [injection Hpay as <- <-; discriminate|].
  destruct (JS.gt _ _) eqn:Hgt;
    [injection Hpay as <- <-; discriminate|].
  cbn [JS.add JS.sub] in Hpay. rewrite !Profile_update_number in Hpay.
  injection Hpay as <- <-. fold P.
  destruct (pay_findOne_Some _ _ _ _ Hrow)
    as (j & c & Hj & Hjid & Hc & Hcid & Hown & ->).
  cbn in Hclient, Hcontractor, P, Hpaid |- *.
  destruct (Profile_by_id_Some _ _ _ Hclient) as [Hidc _].
  destruct (Profile_by_id_Some _ _ _ Hcontractor) as [Hidk _].
  assert (Hactor : Profile.id actor = Profile.id client) by congruence.
  rewrite <- Hidc in Hclient. rewrite <- Hidk in Hcontractor.
  assert (Hafter_c :
    balance_in
      (Orm.Job_update (Job.with_payment now) (Job.id j)
         (Orm.set_balance (JS.Num (JS.round (bc - P))) (Profile.id actor)
            (Orm.set_balance (JS.Num (JS.round (bk + P)))
               (Profile.id contractor) s)))
      (Profile.id client)
    = Some (JS.Num (JS.round (bc - P)))).
  { rewrite balance_in_Job_update, Hactor.
    apply balance_in_set_balance_eq.
    rewrite Profile_by_id_set_balance, Hclient. by eexists. }
  assert (Hafter_k :
    Profile.id client ≠ Profile.id contractor →
    balance_in
      (Orm.Job_update (Job.with_payment now) (Job.id j)
         (Orm.set_balance (JS.Num (JS.round (bc - P))) (Profile.id actor)
            (Orm.set_balance (JS.Num (JS.round (bk + P)))
               (Profile.id contractor) s)))
      (Profile.id contractor)
    = Some (JS.Num (JS.round (bk + P)))).
  { intros Hne. rewrite balance_in_Job_update, Hactor.
    rewrite balance_in_set_balance_ne by congruence.
    apply balance_in_set_balance_eq. by eexists. }
  split; [done|]. split; [done|].
  split; [by unfold balance_in; rewrite Hclient|].
  split; [by unfold balance_in; rewrite Hcontractor|].
  split; [exact Hafter_c|]. split; [exact Hafter_k|].
  split; [|split].
  - intros Hne Hexact_c Hexact_k. unfold sum_of_balances.
    rewrite Hafter_c, (Hafter_k Hne), Hexact_c, Hexact_k.
    split; [done|]. split; [done|]. f_equal. ring.
  - apply Job_update_elem_of. exists j. split; [done|].
    by rewrite decide_True.
  - intros j' (j0 & _ & ->)%Job_update_elem_of Hid.
    case_decide; [done|]. congruence.
Qed.

(** The payment of Harry's open job of 30, at time 77: 30 go from his 40
    to Linus, who had nothing. *)
Lemma pay_success_moves_the_rounded_price_witness :
  balance_in (pay false Sample.harry 1 77 Sample.one_job).2 1
  = Some (JS.Num (Sample.amount 40 - Sample.amount 30))
  ∧ balance_in (pay false Sample.harry 1 77 Sample.one_job).2 3
    = Some (JS.Num (Sample.amount 0 + Sample.amount 30))
  ∧ sum_of_balances (pay false Sample.harry 1 77 Sample.one_job).2 1 3
    = Some (Sample.amount 40 + Sample.amount 0)%Qc.
Proof.
  pose proof
    (pay_success_moves_the_rounded_price false Sample.harry 1 77
       Sample.one_job
       (pay false Sample.harry 1 77 Sample.one_job).1
       (pay false Sample.harry 1 77 Sample.one_job).2
       (mkJobRow (Sample.unpaid_job 1 30 1)
          (Some (Contract.mk 1 in_progress 1 3))
          (Some Sample.harry) (Some Sample.linus))
       Sample.harry Sample.linus (Sample.amount 40) (Sample.amount 0)
       eq_refl eq_refl eq_refl eq_refl eq_refl eq_refl eq_refl)
    as Hpay.
  destruct Hpay as (_ & _ & _ & _ & _ & _ & Hexact & _).
  apply Hexact.
  - vm_compute. discriminate.
  - apply (bool_decide_unpack _). vm_compute. exact I.
  - apply (bool_decide_unpack _). vm_compute. exact I.
Defined.

(** The claim of an exact move fails on cents.  Ash has 1.00 and pays
    Linus, who has 0.06, a job of 0.01: the payment succeeds, Linus ends
    with 0.06999999999999999, which is not his 0.06 plus the price, and
    the sum of the two balances has changed.  It fails as well where the
    contractor is the client himself: Harry pays a job of 30 under a
    contract with himself and ends with 10, not with 40 + 30. *)
Lemma pay_does_not_move_cents_exactly :
  (pay false Ledger.ash_with_a_dollar 1 77 Ledger.small_change).1
  = Response 200 (Message "Paid successfully")
  ∧ balance_in Ledger.small_change 2 = Some (JS.Num (Ledger.cents 100))
  ∧ balance_in Ledger.small_change 3 = Some (JS.Num (Ledger.cents 6))
  ∧ balance_in (pay false Ledger.ash_with_a_dollar 1 77 Ledger.small_change).2 3
    ≠ Some (JS.Num (Ledger.cents 6 + Ledger.cents 1))
  ∧ sum_of_balances
      (pay false Ledger.ash_with_a_dollar 1 77 Ledger.small_change).2 2 3
    ≠ sum_of_balances Ledger.small_change 2 3
  ∧ (pay false Sample.harry 1 77 Ledger.own_contract).1
    = Response 200 (Message "Paid successfully")
  ∧ balance_in (pay false Sample.harry 1 77 Ledger.own_contract).2 1
    = Some (JS.Num (Sample.amount 10))
  ∧ balance_in (pay false Sample.harry 1 77 Ledger.own_contract).2 1
    ≠ Some (JS.Num (Sample.amount 40 + Sample.amount 30)).
Proof.
  repeat split; apply (bool_decide_unpack _); vm_compute; exact I.
Qed.

(** ** Deposits *)

Section Deposit.

(** While no deposit has been applied the loop tests the caller's own
    balance: jobs whose deposit exceeds it are passed over, and nothing
    is written. *)
Lemma deposit_loop_skips rejects_NaN actor n rows b totalPaid totalJobsPaid s :
  Profile.balance actor = JS.Num b →
  Forall (λ job, (b < depositAmount job)%Qc) rows →
  deposit_loop rejects_NaN actor n rows (Instance actor)
    totalPaid totalJobsPaid s
  = (Response 200 (DepositPaid n totalPaid totalJobsPaid), s).
Proof.
  intros Hb Hrows.
  induction Hrows as [|job rows Hjob _ IH]; [done|].
  cbn [deposit_loop balance_of]. rewrite (to_number_balance_Num _ _ Hb).
  cbn [JS.gt]. by rewrite bool_decide_eq_true_2.
Qed.

(** Once a deposit has been applied, [profile] holds the result of the
    update and [profile.balance] is [undefined]: no later job is passed
    over, whatever its price, and a persistence layer that stores what
    it is given is handed [NaN] as the caller's balance. *)
Lemma deposit_loop_after_an_update actor n rows r totalPaid totalJobsPaid s :
  Forall (λ job, is_Some (row_Contractor job)) rows →
  (deposit_loop false actor n rows (UpdateResult r)
     totalPaid totalJobsPaid s).1
  = Response 200
      (DepositPaid n (total_paid totalPaid rows)
         (totalJobsPaid + length rows)%nat).
Proof.
  intros Hrows. revert r totalPaid totalJobsPaid s.
  induction Hrows as [|job rows [contractor Hjob] _ IH];
    intros r totalPaid totalJobsPaid s.
  - cbn. do 2 f_equal. lia.
  - cbn [deposit_loop balance_of JS.to_number JS.gt JS.sub
           Orm.Profile_update].
    rewrite Hjob, IH. cbn [total_paid foldl length]. do 2 f_equal. lia.
Qed.

End Deposit.

(** C10.  When the candidate jobs are not empty and the deposit of each
    exceeds the caller's balance, all are passed over: the answer is 200
    ['Deposit paid'] with [jobs] the number of candidates, [paid = 0] and
    [totalJobsPaid = 0], and nothing is written. *)
Theorem deposit_all_skipped_is_still_200 rejects_NaN actor userId s b :
  Profile.balance actor = JS.Num b →
  deposit_findAll actor userId s ≠ [] →
  Forall (λ job, (b < depositAmount job)%Qc) (deposit_findAll actor userId s) →
  deposit rejects_NaN actor userId s
  = (Response 200
       (DepositPaid (length (deposit_findAll actor userId s)) 0%Qc 0%nat), s).
Proof.
  intros Hb Hjobs Hskip. unfold deposit.
  case_decide as Hlen.
  - by apply nil_length_inv in Hlen.
  - by eapply deposit_loop_skips.
Qed.

(** Harry's 40 do not cover the deposit of 50 on a job of 200. *)
Lemma deposit_all_skipped_is_still_200_witness :
  deposit false Sample.harry 3 Sample.costly_job
  = (Response 200 (DepositPaid 1 0%Qc 0%nat), Sample.costly_job).
Proof.
  apply (deposit_all_skipped_is_still_200 false Sample.harry 3
           Sample.costly_job (Sample.amount 40)).
  - reflexivity.
  - vm_compute. discriminate.
  - vm_compute. repeat constructor.
Defined.

(** ** No balance below zero *)

Section NeverNegative.

(** Writing a value that is not a number below zero keeps the store
    free of such numbers. *)
Lemma settled_update_preserves (P : JS.number → Prop) rejects_NaN v pid s :
  P v →
  Forall (λ p, P (Profile.balance p)) (profiles s) →
  Forall (λ p, P (Profile.balance p))
    (profiles (Orm.settled s (Orm.Profile_update rejects_NaN v pid s))).
Proof.
  intros Hv Hs. destruct v as [x|], rejects_NaN; cbn; try done;
    by apply set_balance_preserves.
Qed.

(** What the guard [amount > balance] lets through does not go below
    zero. *)
Lemma sub_not_negative (amount : Qc) (balance : JS.number) :
  JS.gt (JS.Num amount) balance = false →
  not_negative (JS.sub balance (JS.Num amount)).
Proof.
  destruct balance as [b|]; [|done]. cbn.
  intros Hgt%bool_decide_eq_false_1%Qcnot_lt_le.
  apply round_nonneg. by apply Qcle_minus_iff in Hgt.
Qed.

Lemma add_not_negative (amount : Qc) (balance : JS.number) :
  not_negative balance → (0 ≤ amount)%Qc →
  not_negative (JS.add balance (JS.Num amount)).
Proof.
  destruct balance as [b|]; [|done]. cbn. intros Hb Hamount.
  by apply round_nonneg, Qcplus_nonneg_nonneg.
Qed.

(** A balance that is not a number below zero loads as one that is not:
    NULL is read as 0. *)
Lemma loaded_not_negative p :
  not_negative (Profile.balance p) →
  not_negative (JS.to_number (Orm.balance p)).
Proof.
  rewrite to_number_balance. by destruct (Profile.balance p).
Qed.

Lemma Profile_by_id_Forall (P : JS.number → Prop) s pid p :
  Forall (λ p, P (Profile.balance p)) (profiles s) →
  Orm.Profile_by_id s pid = Some p →
  P (Profile.balance p).
Proof.
  intros Hs [_ Hp]%Profile_by_id_Some.
  rewrite Forall_forall in Hs. by apply Hs.
Qed.

Lemma depositAmount_non_negative job :
  (0 ≤ Job.price (row_job job))%Qc → (0 ≤ depositAmount job)%Qc.
Proof.
  intros Hprice. unfold depositAmount.
  by apply Qcmult_nonneg_nonneg.
Qed.

(** The rows of the deposit carry jobs and contractors of the store. *)
Lemma deposit_findAll_rows (P : JS.number → Prop) actor userId s :
  prices_non_negative s →
  Forall (λ p, P (Profile.balance p)) (profiles s) →
  Forall (λ job, (0 ≤ Job.price (row_job job))%Qc
                 ∧ ∀ contractor, row_Contractor job = Some contractor
                                 → P (Profile.balance contractor))
         (deposit_findAll actor userId s).
Proof.
  intros Hprices Hs. apply Forall_forall. intros job Hjob.
  unfold deposit_findAll in Hjob.
  apply list_elem_of_bind in Hjob as (j & Hjob & [_ Hj]%list_elem_of_filter).
  apply list_elem_of_bind in Hjob as (c & ->%list_elem_of_singleton & _).
  cbn. split.
  - unfold prices_non_negative in Hprices. rewrite Forall_forall in Hprices.
    by apply Hprices.
  - intros contractor Hco. by eapply Profile_by_id_Forall.
Qed.

(** A payment writes no number below zero: the client's new balance has
    passed the guard, the contractor's is a sum of two amounts. *)
Lemma pay_never_negative rejects_NaN actor job_id now s :
  prices_non_negative s →
  never_negative s →
  never_negative (pay rejects_NaN actor job_id now s).2.
Proof.
  intros Hprices Hs. unfold pay.
  destruct (pay_findOne actor job_id s) as [row|] eqn:Hrow; [|done].
  destruct (pay_findOne_Some _ _ _ _ Hrow)
    as (j & c & Hj & _ & _ & _ & _ & ->).
  cbn [row_job row_Client row_Contractor].
  destruct (Job.paid j); [done|].
  destruct (Orm.Profile_by_id s (Contract.ClientId c))
    as [client|] eqn:Hclient; [|done].
  destruct (JS.gt _ _) eqn:Hgt; [done|].
  destruct (Orm.Profile_by_id s (Contract.ContractorId c))
    as [contractor|] eqn:Hcontractor; [|done].
  cbn [snd]. unfold never_negative, Orm.Job_update. cbn [profiles].
  unfold prices_non_negative in Hprices. rewrite Forall_forall in Hprices.
  apply (settled_update_preserves not_negative).
  - by apply sub_not_negative.
  - apply (settled_update_preserves not_negative); [|done].
    apply add_not_negative; [|by apply Hprices].
    apply loaded_not_negative.
    by eapply (Profile_by_id_Forall not_negative).
Qed.

(** Neither does the loop of a deposit: the first charge has passed the
    guard, the later ones write [NaN], and every credit is a sum of two
    amounts. *)
Lemma deposit_loop_never_negative
    rejects_NaN actor n rows profile totalPaid totalJobsPaid s :
  Forall (λ job, (0 ≤ Job.price (row_job job))%Qc
                 ∧ ∀ contractor, row_Contractor job = Some contractor
                                 → not_negative (Profile.balance contractor))
         rows →
  never_negative s →
  never_negative
    (deposit_loop rejects_NaN actor n rows profile
       totalPaid totalJobsPaid s).2.
Proof.
  intros Hrows. revert profile totalPaid totalJobsPaid s.
  induction Hrows as [|job rows [Hprice Hcontractor] _ IH];
    intros profile totalPaid totalJobsPaid s Hs; [done|].
  cbn [deposit_loop].
  destruct (JS.gt _ _) eqn:Hgt; [by apply IH|].
  apply sub_not_negative in Hgt.
  destruct (Orm.Profile_update _ _ _ _) as [[r s1]|e] eqn:Hupdate; [|done].
  assert (Hs1 : never_negative s1).
  { pose proof (settled_update_preserves not_negative rejects_NaN
                  _ (Profile.id actor) s Hgt Hs) as Hsettled.
    by rewrite Hupdate in Hsettled. }
  destruct (row_Contractor job) as [contractor|] eqn:Hco; [|done].
  apply IH.
  unfold never_negative, Orm.Job_update. cbn [profiles].
  apply (settled_update_preserves not_negative); [|done].
  apply add_not_negative; [|by apply depositAmount_non_negative].
  by apply loaded_not_negative, Hcontractor.
Qed.

Lemma deposit_never_negative rejects_NaN actor userId s :
  prices_non_negative s →
  never_negative s →
  never_negative (deposit rejects_NaN actor userId s).2.
Proof.
  intros Hprices Hs. unfold deposit. case_decide; [done|].
  apply deposit_loop_never_negative; [|done].
  by apply deposit_findAll_rows.
Qed.

(** Neither operation changes a price. *)
Lemma Job_update_prices f jid s :
  (∀ j, Job.price (f j) = Job.price j) →
  prices_non_negative s →
  prices_non_negative (Orm.Job_update f jid s).
Proof.
  intros Hf Hs. unfold prices_non_negative, Orm.Job_update. cbn [jobs].
  apply Forall_fmap. eapply Forall_impl; [exact Hs|].
  intros j Hj. cbn. case_decide; [by rewrite Hf|done].
Qed.

Lemma settled_update_prices rejects_NaN v pid s :
  prices_non_negative s →
  prices_non_negative (Orm.settled s (Orm.Profile_update rejects_NaN v pid s)).
Proof. by destruct v, rejects_NaN. Qed.

Lemma pay_prices rejects_NaN actor job_id now s :
  prices_non_negative s →
  prices_non_negative (pay rejects_NaN actor job_id now s).2.
Proof.
  intros Hs. unfold pay.
  repeat (case_match; try done). cbn [snd].
  apply Job_update_prices; [done|].
  by do 2 apply settled_update_prices.
Qed.

Lemma deposit_loop_prices
    rejects_NaN actor n rows profile totalPaid totalJobsPaid s :
  prices_non_negative s →
  prices_non_negative
    (deposit_loop rejects_NaN actor n rows profile
       totalPaid totalJobsPaid s).2.
Proof.
  revert profile totalPaid totalJobsPaid s.
  induction rows as [|job rows IH];
    intros profile totalPaid totalJobsPaid s Hs; [done|].
  cbn [deposit_loop].
  destruct (JS.gt _ _); [by apply IH|].
  destruct (Orm.Profile_update _ _ _ _) as [[r s1]|e] eqn:Hupdate; [|done].
  assert (Hs1 : prices_non_negative s1).
  { pose proof (settled_update_prices rejects_NaN
                  (JS.sub (JS.to_number (balance_of profile))
                     (JS.Num (depositAmount job)))
                  (Profile.id actor) s Hs) as Hsettled.
    by rewrite Hupdate in Hsettled. }
  destruct (row_Contractor job) as [contractor|]; [|done].
  apply IH, Job_update_prices; [done|].
  by apply settled_update_prices.
Qed.

Lemma deposit_prices rejects_NaN actor userId s :
  prices_non_negative s →
  prices_non_negative (deposit rejects_NaN actor userId s).2.
Proof.
  intros Hs. unfold deposit. case_decide; [done|].
  by apply deposit_loop_prices.
Qed.

Lemma handle_keeps_the_invariant rejects_NaN r s :
  prices_non_negative s →
  never_negative s →
  prices_non_negative (handle rejects_NaN s r)
  ∧ never_negative (handle rejects_NaN s r).
Proof.
  intros Hprices Hs. destruct r as [actor job_id now|actor userId]; cbn.
  - split; [by apply pay_prices|by apply pay_never_negative].
  - split; [by apply deposit_prices|by apply deposit_never_negative].
Qed.

End NeverNegative.

(** C3.  Starting from prices that are not below zero and from balances
    none of which is a number below zero, after any sequence of payments
    and deposits no balance is a number below zero, whatever the
    persistence layer does with [NaN].  (A balance may have been left
    without a number, NULL in the database, by a deposit that charged
    two jobs: no number below zero is ever written.) *)
Theorem run_never_negative
    (rejects_NaN : bool) (rs : list request) (s : Store) :
  prices_non_negative s →
  never_negative s →
  never_negative (run rejects_NaN rs s)
  ∧ ∀ p q, p ∈ profiles (run rejects_NaN rs s) →
           Profile.balance p = JS.Num q → (0 ≤ q)%Qc.
Proof.
  intros Hprices Hs.
  assert (Hrun : never_negative (run rejects_NaN rs s)).
  { unfold run. revert s Hprices Hs.
    induction rs as [|r rs IH]; intros s Hprices Hs; [done|].
    cbn [foldl].
    destruct (handle_keeps_the_invariant rejects_NaN r s Hprices Hs).
    by apply IH. }
  split; [done|]. intros p q Hp Hq.
  unfold never_negative in Hrun. rewrite Forall_forall in Hrun.
  specialize (Hrun p Hp). by rewrite Hq in Hrun.
Qed.

(** Harry deposits on his two jobs of 40, which leaves his balance
    without a number, and then asks to pay the first. *)
Lemma run_never_negative_witness :
  never_negative
    (run false [Deposit Sample.harry 3; Pay Sample.harry 1 77] Sample.two_jobs).
Proof.
  apply (run_never_negative false
           [Deposit Sample.harry 3; Pay Sample.harry 1 77] Sample.two_jobs).
  - apply (bool_decide_unpack _). vm_compute. exact I.
  - apply (bool_decide_unpack _). vm_compute. exact I.
Defined.

(** Closed facts are settled by evaluating the handlers. *)
Local Ltac evaluate := apply (bool_decide_unpack _); vm_compute; exact I.

(** C2.  A request for a job that does not exist (or is not the caller's)
    is answered 400 with the message of the [TypeError] thrown by the read
    of [job.Contract], not with ['No Job found']: that message is never
    sent.  The store is left as it was. *)
Theorem pay_missing_job_is_a_type_error :
  pay_findOne Sample.harry 9 Sample.one_job = None
  ∧ pay false Sample.harry 9 77 Sample.one_job
    = (Response 400 (ErrorMessage (JS.TypeError_read_of_null "Contract")),
       Sample.one_job)
  ∧ ∀ rejects_NaN actor job_id now s,
      body_of (pay rejects_NaN actor job_id now s).1 ≠ Message "No Job found".
Proof.
  split; [reflexivity|]. split; [reflexivity|].
  apply pay_never_No_Job_found.
Qed.

(** C4.  Three open jobs of 100 and a balance of 40.  The first deposit of
    25 is applied; the second and the third are not passed over.  Where
    the persistence layer stores what it is given the answer reports
    [totalJobsPaid = 3] and [paid = 75] and the caller's balance is [NaN];
    where it refuses [NaN] the answer is 400 after the first deposit.  In
    neither case does the answer report [totalJobsPaid = 1] and
    [paid = 25]. *)
Theorem deposit_three_jobs_balance_40 :
  (deposit false Sample.harry 3 Sample.three_jobs).1
  = Response 200 (DepositPaid 3 (Sample.amount 75) 3)
  ∧ balance_in (deposit false Sample.harry 3 Sample.three_jobs).2 1
    = Some JS.NaN
  ∧ (deposit true Sample.harry 3 Sample.three_jobs).1
    = Response 400 (ErrorMessage (JS.StorageError "NaN is not a valid decimal"))
  ∧ balance_in (deposit true Sample.harry 3 Sample.three_jobs).2 1
    = Some (JS.Num (Sample.amount 15))
  ∧ ∀ rejects_NaN,
      (deposit rejects_NaN Sample.harry 3 Sample.three_jobs).1
      ≠ Response 200 (DepositPaid 3 (Sample.amount 25) 1).
Proof.
  split; [evaluate|]. split; [evaluate|]. split; [evaluate|].
  split; [evaluate|].
  intros [|]; evaluate.
Qed.

(** ** Reports *)

Section ReportLemmas.

Context (forgiving : string → Moment.t).
Context (profession_rows : Moment.t → Moment.t → Store → list Profile.t).

(** The 400 of the best-profession report depends on [start] alone. *)
Lemma best_profession_400_iff q s :
  status (best_profession forgiving profession_rows q s) = 400
  ↔ truthy (start q) = true ∧ validateDate (to_string (start q)) = false.
Proof.
  unfold best_profession.
  destruct (truthy (start q)); cbn [andb]; [|split; [done|intros [? _]; done]].
  destruct (validateDate (to_string (start q))); cbn [negb orb].
  - split; [|intros [_ ?]; done].
    repeat case_match; done.
  - done.
Qed.

(** No [start]: 404, whatever [end] is. *)
Lemma best_profession_without_start q s :
  truthy (start q) = false →
  best_profession forgiving profession_rows q s = Response 404 NoBody.
Proof. intros Hstart. unfold best_profession. by rewrite Hstart. Qed.

(** No row in range: 404. *)
Lemma best_profession_no_rows q s :
  truthy (start q) = true →
  validateDate (to_string (start q)) = true →
  profession_rows (moment forgiving (start q)) (moment forgiving (end_ q)) s
  = [] →
  best_profession forgiving profession_rows q s = Response 404 NoBody.
Proof.
  intros Hstart Hvalid Hrows. unfold best_profession.
  rewrite Hstart, Hvalid, Hrows. cbn. by case_match.
Qed.

End ReportLemmas.

(** C7.  An [end] that is not in the [MM-DD-YYYY] format does not make
    the best-profession report answer 400: without [start] the answer is
    404, and with a well-formed [start] it is never 400.  (A [start] that
    is not in the format is answered 400, and missing parameters 404.) *)
Theorem best_profession_malformed_end_is_not_400
    (forgiving : string → Moment.t)
    (profession_rows : Moment.t → Moment.t → Store → list Profile.t)
    (s : Store) :
  validateDate "2020/12/31" = false
  ∧ best_profession forgiving profession_rows
      (mkQuery None (Some "2020/12/31") None) s
    = Response 404 NoBody
  ∧ status (best_profession forgiving profession_rows
              (mkQuery (Some "01-01-2020") (Some "2020/12/31") None) s)
    ≠ 400
  ∧ status (best_profession forgiving profession_rows
              (mkQuery (Some "2020/01/01") (Some "12-31-2020") None) s)
    = 400.
Proof.
  split; [reflexivity|]. split; [reflexivity|]. split.
  - rewrite best_profession_400_iff. intros [_ Hvalid].
    vm_compute in Hvalid. discriminate.
  - by apply best_profession_400_iff.
Qed.

(** C8.  Harry paid 500 in 2020 (two jobs of 250) and Ash 300 (one job of
    300).  With [limit=1] the report groups the jobs by price and orders
    the groups by price: it returns Ash, the client of the dearest job,
    and not Harry, who paid the most.  Without [limit] it returns both,
    Ash first. *)
Theorem best_clients_ranks_by_price (forgiving : string → Moment.t) :
  best_clients forgiving Sample.year_2020_query Sample.year_2020
  = Response 200 (ClientList [mkEntry 2 "Ash Ketchum" (Sample.amount 300)])
  ∧ best_clients forgiving
      (mkQuery (Some "01-01-2020") (Some "12-31-2020") None) Sample.year_2020
    = Response 200
        (ClientList [mkEntry 2 "Ash Ketchum" (Sample.amount 300);
                     mkEntry 1 "Harry Potter" (Sample.amount 500)]).
Proof. split; evaluate. Qed.

(** * Further properties of the handlers *)

(** ** Contract by id *)

Section ContractById.

(** The first row of a selection over a table with a unique key. *)
Lemma head_filter_unique {A} (key : A → Z) (P : A → Prop)
    `{!∀ x, Decision (P x)} (l : list A) (x : A) :
  NoDup (key <$> l) →
  x ∈ l → P x → (∀ y, P y → key y = key x) →
  head (filter P l) = Some x.
Proof.
  intros Hnodup Hx HPx Hkey.
  induction l as [|y l IH]; [by apply elem_of_nil in Hx|].
  rewrite fmap_cons in Hnodup. apply NoDup_cons in Hnodup as [Hy Hnodup].
  rewrite filter_cons. destruct (decide (P y)) as [HPy|HPy].
  - cbn. f_equal. apply elem_of_cons in Hx as [->|Hx]; [done|].
    exfalso. apply Hy. rewrite (Hkey y HPy).
    by apply list_elem_of_fmap_2.
  - apply elem_of_cons in Hx as [->|Hx]; [done|]. by apply IH.
Qed.

Lemma get_contract_Some actor id s c :
  head (filter (λ c, Contract.id c = id ∧ owned_by actor c) (contracts s))
  = Some c →
  c ∈ contracts s ∧ Contract.id c = id ∧ owned_by actor c.
Proof.
  intros Hc%head_Some_elem_of. apply list_elem_of_filter in Hc. tauto.
Qed.

End ContractById.

(** X1.  [GET /contracts/:id] answers either 200 with a contract of the
    table that has the id asked for and is the actor's (by [ClientId] for
    a client, by [ContractorId] otherwise), or 400 ['No contract found'];
    the latter exactly when no contract with that id is the actor's,
    whether it is missing or someone else's. *)
Theorem get_contract_owned_or_400 (actor : Profile.t) (id : Z) (s : Store) :
  ((∃ c, get_contract actor id s = (200, ContractJson c)
         ∧ c ∈ contracts s ∧ Contract.id c = id
         ∧ ((Profile.type actor = Role.client
             ∧ Contract.ClientId c = Profile.id actor)
            ∨ (Profile.type actor ≠ Role.client
               ∧ Contract.ContractorId c = Profile.id actor)))
   ∨ get_contract actor id s = (400, ContractMessage "No contract found"))
  ∧ (get_contract actor id s = (400, ContractMessage "No contract found")
     ↔ ∀ c, c ∈ contracts s → Contract.id c = id →
            ¬ ((Profile.type actor = Role.client
                ∧ Contract.ClientId c = Profile.id actor)
               ∨ (Profile.type actor ≠ Role.client
                  ∧ Contract.ContractorId c = Profile.id actor))).
Proof.
  unfold get_contract.
  destruct (head _) as [c|] eqn:Hhead.
  - apply get_contract_Some in Hhead as (Hin & Hid & Hown).
    assert (Hown' : (Profile.type actor = Role.client
                     ∧ Contract.ClientId c = Profile.id actor)
                    ∨ (Profile.type actor ≠ Role.client
                       ∧ Contract.ContractorId c = Profile.id actor)).
    { unfold owned_by in Hown. case_decide; tauto. }
    split; [left; by exists c|].
    split; [discriminate|]. intros Hnone. by destruct (Hnone c Hin Hid).
  - split; [by right|]. split; [|done]. intros _ c Hin Hid Hown.
    apply head_None in Hhead.
    assert (Hc : c ∈ filter (λ c, Contract.id c = id ∧ owned_by actor c)
                            (contracts s)).
    { apply list_elem_of_filter. split; [|done]. split; [done|].
      unfold owned_by. case_decide; tauto. }
    rewrite Hhead in Hc. by apply elem_of_nil in Hc.
Qed.

(** X2.  Where contract ids are unique, [GET /contracts/:id] answers 200
    with the contract itself for every contract the actor owns, whatever
    its status: every contract [GET /contracts] lists can be fetched by
    its id, and so can a terminated one that the listing leaves out. *)
Theorem get_contract_fetches_every_owned_contract
    (actor : Profile.t) (s : Store) (c : Contract.t) :
  NoDup (Contract.id <$> contracts s) →
  c ∈ contracts s →
  owned_by actor c →
  get_contract actor (Contract.id c) s = (200, ContractJson c)
  ∧ (Contract.status c ≠ terminated →
     ∃ rows, get_contracts actor s = Response 200 (ContractList rows)
             ∧ c ∈ rows).
Proof.
  intros Hnodup Hin Hown. split.
  - unfold get_contract.
    rewrite (head_filter_unique Contract.id _ _ c); try done.
    by intros y [Hy _].
  - intros Hstatus. eexists. split; [reflexivity|].
    by apply list_elem_of_filter.
Qed.

(** Harry's terminated contract is not listed, and is fetched by its id. *)
Lemma get_contract_fetches_every_owned_contract_witness :
  get_contract Sample.harry 1 Ledger.terminated_contract
  = (200, ContractJson (Contract.mk 1 terminated 1 3)).
Proof.
  apply (get_contract_fetches_every_owned_contract Sample.harry
           Ledger.terminated_contract (Contract.mk 1 terminated 1 3)).
  - vm_compute. repeat constructor. apply not_elem_of_nil.
  - vm_compute. repeat constructor.
  - vm_compute. reflexivity.
Defined.

(** X3.  Every job [GET /jobs/unpaid] returns to an actor comes with a
    contract that [GET /contracts] lists for the same actor. *)
Theorem unpaid_jobs_are_under_listed_contracts (actor : Profile.t) (s : Store) :
  ∃ jobs contracts,
    get_unpaid_jobs actor s = Response 200 (JobList jobs)
    ∧ get_contracts actor s = Response 200 (ContractList contracts)
    ∧ ∀ J C, (J, C) ∈ jobs → C ∈ contracts.
Proof.
  do 2 eexists. split; [reflexivity|]. split; [reflexivity|].
  intros J C HJC. unfold unpaid_rows in HJC.
  apply list_elem_of_bind in HJC as (j & HJC & _).
  apply list_elem_of_bind in HJC as (c & [= -> ->]%list_elem_of_singleton & Hc).
  apply list_elem_of_filter in Hc as [(_ & Hstatus & Hown) Hin].
  apply list_elem_of_filter. split; [|done]. split; [|done].
  by rewrite Hstatus.
Qed.

(** ** More on payments *)

Section PayShape.

Lemma settled_update_contracts rejects_NaN v pid s :
  contracts (Orm.settled s (Orm.Profile_update rejects_NaN v pid s))
  = contracts s.
Proof. by destruct v, rejects_NaN. Qed.

Lemma settled_update_jobs rejects_NaN v pid s :
  jobs (Orm.settled s (Orm.Profile_update rejects_NaN v pid s)) = jobs s.
Proof. by destruct v, rejects_NaN. Qed.

(** An update of a balance, stored or refused, changes nothing of the
    profiles with another id. *)
Lemma settled_update_other_profile rejects_NaN v pid s q :
  q ≠ pid →
  Orm.Profile_by_id (Orm.settled s (Orm.Profile_update rejects_NaN v pid s)) q
  = Orm.Profile_by_id s q.
Proof.
  intros Hne.
  assert (Hset : Orm.Profile_by_id (Orm.set_balance v pid s) q
                 = Orm.Profile_by_id s q).
  { rewrite Profile_by_id_set_balance.
    destruct (Orm.Profile_by_id s q); [|done]. cbn. by rewrite decide_False. }
  by destruct v, rejects_NaN.
Qed.

Lemma Forall2_fmap_same {A} (R : A → A → Prop) (f : A → A) (l : list A) :
  (∀ x, R x (f x)) → Forall2 R l (f <$> l).
Proof. intros Hf. induction l; constructor; auto. Qed.

Lemma Forall2_same {A} (R : A → A → Prop) (l : list A) :
  (∀ x, R x x) → Forall2 R l l.
Proof. intros HR. induction l; constructor; auto. Qed.

Lemma settled_update_evolves rejects_NaN v pid s :
  Forall2 profile_evolves (profiles s)
    (profiles (Orm.settled s (Orm.Profile_update rejects_NaN v pid s))).
Proof.
  assert (Hset : Forall2 profile_evolves (profiles s)
                   (profiles (Orm.set_balance v pid s))).
  { unfold Orm.set_balance. cbn [profiles]. apply Forall2_fmap_same.
    intros p. unfold profile_evolves. by case_decide. }
  destruct v, rejects_NaN; try exact Hset.
  apply Forall2_same. by intros p.
Qed.

(** The store a payment leaves: the contracts as they were, and the jobs
    either as they were or with the jobs of the id asked for marked
    paid. *)
Lemma pay_store_shape rejects_NaN actor job_id now s :
  contracts (pay rejects_NaN actor job_id now s).2 = contracts s
  ∧ ((status (pay rejects_NaN actor job_id now s).1 ≠ 200
      ∧ (pay rejects_NaN actor job_id now s).2 = s)
     ∨ (status (pay rejects_NaN actor job_id now s).1 = 200
        ∧ jobs (pay rejects_NaN actor job_id now s).2
          = (λ j, if decide (Job.id j = job_id)
                  then Job.with_payment now j else j) <$> jobs s)).
Proof.
  unfold pay.
  destruct (pay_findOne actor job_id s) as [row|] eqn:Hrow;
    [|split; [done|by left]].
  destruct (pay_findOne_Some _ _ _ _ Hrow)
    as (j & c & _ & Hid & _ & _ & _ & ->).
  cbn [row_job row_Client row_Contractor].
  destruct (Job.paid j); [split; [done|by left]|].
  destruct (Orm.Profile_by_id s (Contract.ClientId c)) as [client|];
    [|split; [done|by left]].
  destruct (JS.gt _ _); [split; [done|by left]|].
  destruct (Orm.Profile_by_id s (Contract.ContractorId c)) as [contractor|];
    [|split; [done|by left]].
  cbn [fst snd status]. unfold Orm.Job_update. cbn [contracts jobs].
  rewrite !settled_update_contracts, !settled_update_jobs, Hid.
  split; [done|]. by right.
Qed.

(** After a payment that went through, every job with the id asked for
    is marked paid. *)
Lemma pay_success_marks_paid rejects_NaN actor job_id now s j :
  status (pay rejects_NaN actor job_id now s).1 = 200 →
  j ∈ jobs (pay rejects_NaN actor job_id now s).2 →
  Job.id j = job_id →
  Job.paid j = true.
Proof.
  intros Hstatus Hj Hid.
  destruct (pay_store_shape rejects_NaN actor job_id now s)
    as [_ [[Hne _]|[_ Hjobs]]]; [done|].
  rewrite Hjobs in Hj. apply list_elem_of_fmap in Hj as (j0 & -> & _).
  case_decide; [done|]. congruence.
Qed.

End PayShape.

(** X4.  A payment request is answered 200 or 400, and a request that is
    answered 400 leaves the whole store as it was: no balance, job or
    contract is written. *)
Theorem pay_writes_only_on_success
    (rejects_NaN : bool) (actor : Profile.t) (job_id now : Z) (s : Store) :
  (status (pay rejects_NaN actor job_id now s).1 = 200
   ∨ status (pay rejects_NaN actor job_id now s).1 = 400)
  ∧ (status (pay rejects_NaN actor job_id now s).1 = 400
     → (pay rejects_NaN actor job_id now s).2 = s).
Proof.
  split.
  - unfold pay. repeat case_match; cbn; tauto.
  - intros Hstatus. apply pay_rejection_writes_nothing.
    rewrite Hstatus. discriminate.
Qed.

(** X5.  Paying is one-way: once a payment of a job has gone through, the
    same request again is answered 400 ['Job already paid'] and writes
    nothing. *)
Theorem pay_twice_is_refused
    (rejects_NaN : bool) (actor : Profile.t) (job_id now later : Z) (s : Store) :
  status (pay rejects_NaN actor job_id now s).1 = 200 →
  pay rejects_NaN actor job_id later (pay rejects_NaN actor job_id now s).2
  = (Response 400 (Message "Job already paid"),
     (pay rejects_NaN actor job_id now s).2).
Proof.
  intros Hstatus.
  destruct (pay_success_inv _ _ _ _ _ Hstatus)
    as (row & _ & _ & Hrow & _).
  destruct (pay_findOne_Some _ _ _ _ Hrow)
    as (j & c & Hj & Hid & Hc & Hcid & Hown & _).
  destruct (pay_store_shape rejects_NaN actor job_id now s)
    as [Hcontracts [[Hne _]|[_ Hjobs]]]; [done|].
  set (s' := (pay rejects_NaN actor job_id now s).2) in *.
  destruct (pay_findOne actor job_id s') as [row'|] eqn:Hrow'.
  - apply (pay_already_paid _ _ _ _ _ row'); [done|].
    destruct (pay_findOne_Some _ _ _ _ Hrow')
      as (j' & c' & Hj' & Hid' & _ & _ & _ & ->).
    by eapply pay_success_marks_paid.
  - exfalso. unfold pay_findOne in Hrow'. apply head_None in Hrow'.
    assert (Hin : mkJobRow (Job.with_payment now j) (Some c)
                    (Orm.Profile_by_id s' (Contract.ClientId c))
                    (Orm.Profile_by_id s' (Contract.ContractorId c))
                  ∈ @nil JobRow); [|by apply elem_of_nil in Hin].
    rewrite <- Hrow'. apply list_elem_of_bind.
    exists (Job.with_payment now j). split.
    + apply list_elem_of_bind. exists c. split; [by apply list_elem_of_singleton|].
      apply list_elem_of_filter. by rewrite Hcontracts.
    + apply list_elem_of_filter. split; [done|].
      rewrite Hjobs. apply list_elem_of_fmap. exists j.
      by rewrite decide_True.
Qed.

(** Harry pays his job of 30 at time 77 and asks again at time 78. *)
Lemma pay_twice_is_refused_witness :
  (pay false Sample.harry 1 78 (pay false Sample.harry 1 77 Sample.one_job).2).1
  = Response 400 (Message "Job already paid").
Proof.
  rewrite (pay_twice_is_refused false Sample.harry 1 77 78 Sample.one_job).
  - reflexivity.
  - reflexivity.
Defined.

(** X6.  A payment changes nothing else: the contracts are as they were,
    the jobs with another id are as they were, and so is every profile
    other than the caller and the contractor of the job's contract. *)
Theorem pay_changes_nothing_else
    (rejects_NaN : bool) (actor : Profile.t) (job_id now : Z) (s : Store)
    (row : JobRow) (c : Contract.t) :
  pay_findOne actor job_id s = Some row →
  row_Contract row = Some c →
  contracts (pay rejects_NaN actor job_id now s).2 = contracts s
  ∧ (∀ j, Job.id j ≠ job_id →
          j ∈ jobs (pay rejects_NaN actor job_id now s).2 ↔ j ∈ jobs s)
  ∧ (∀ q, q ≠ Profile.id actor → q ≠ Contract.ContractorId c →
          Orm.Profile_by_id (pay rejects_NaN actor job_id now s).2 q
          = Orm.Profile_by_id s q).
Proof.
  intros Hrow Hc.
  destruct (pay_store_shape rejects_NaN actor job_id now s)
    as [Hcontracts Hshape].
  split; [done|]. split.
  - intros j Hne.
    destruct Hshape as [[_ ->]|[_ ->]]; [done|].
    rewrite list_elem_of_fmap. split.
    + intros (j0 & -> & Hj0). case_decide; [done|]. done.
    + intros Hj. exists j. by rewrite decide_False.
  - intros q Hactor Hcontractor. unfold pay. rewrite Hrow.
    destruct (pay_findOne_Some _ _ _ _ Hrow)
      as (j & c' & _ & _ & _ & _ & _ & ->).
    cbn in Hc. injection Hc as ->.
    cbn [row_job row_Client row_Contractor].
    destruct (Job.paid j); [done|].
    destruct (Orm.Profile_by_id s (Contract.ClientId c))
      as [client|]; [|done].
    destruct (JS.gt _ _); [done|].
    destruct (Orm.Profile_by_id s (Contract.ContractorId c))
      as [contractor|] eqn:Hcontractor'; [|done].
    apply Profile_by_id_Some in Hcontractor' as [Hidk _].
    cbn [snd].
    set (credit := JS.add _ _). set (debit := JS.sub _ _).
    change (Orm.Profile_by_id
              (Orm.settled
                 (Orm.settled s
                    (Orm.Profile_update rejects_NaN credit
                       (Profile.id contractor) s))
                 (Orm.Profile_update rejects_NaN debit (Profile.id actor)
                    (Orm.settled s
                       (Orm.Profile_update rejects_NaN credit
                          (Profile.id contractor) s)))) q
            = Orm.Profile_by_id s q).
    rewrite !settled_update_other_profile by congruence. done.
Qed.

(** Harry pays Linus: Ash's profile is as it was. *)
Lemma pay_changes_nothing_else_witness :
  Orm.Profile_by_id (pay false Sample.harry 1 77 Sample.one_job).2 2
  = Some Sample.ash.
Proof.
  pose proof
    (pay_changes_nothing_else false Sample.harry 1 77 Sample.one_job
       (mkJobRow (Sample.unpaid_job 1 30 1)
          (Some (Contract.mk 1 in_progress 1 3))
          (Some Sample.harry) (Some Sample.linus))
       (Contract.mk 1 in_progress 1 3) eq_refl eq_refl)
    as (_ & _ & Hprofiles).
  rewrite (Hprofiles 2).
  - reflexivity.
  - vm_compute. discriminate.
  - vm_compute. discriminate.
Defined.

(** X7.  A client cannot pay a job that is not under one of their own
    contracts: when every contract of the jobs with this id has another
    client, the request is answered 400 and nothing is written. *)
Theorem pay_foreign_job_is_refused
    (rejects_NaN : bool) (actor : Profile.t) (job_id now : Z) (s : Store) :
  (∀ j c, j ∈ jobs s → Job.id j = job_id →
          c ∈ contracts s → Contract.id c = Job.ContractId j →
          Contract.ClientId c ≠ Profile.id actor) →
  status (pay rejects_NaN actor job_id now s).1 = 400
  ∧ (pay rejects_NaN actor job_id now s).2 = s.
Proof.
  intros Hforeign.
  destruct (pay_findOne actor job_id s) as [row|] eqn:Hrow.
  - destruct (pay_findOne_Some _ _ _ _ Hrow)
      as (j & c & Hj & Hid & Hc & Hcid & Hown & _).
    by destruct (Hforeign j c).
  - by rewrite pay_no_job.
Qed.

(** Ash asks to pay Harry's job. *)
Lemma pay_foreign_job_is_refused_witness :
  (pay false Sample.ash 1 77 Sample.one_job).2 = Sample.one_job.
Proof.
  apply (pay_foreign_job_is_refused false Sample.ash 1 77 Sample.one_job).
  intros j c Hj Hid Hc Hcid.
  apply list_elem_of_singleton in Hc as ->.
  vm_compute. discriminate.
Defined.

(** X8.  Once a payment of a job has gone through, no job with that id is
    returned by [GET /jobs/unpaid], to whatever actor. *)
Theorem paid_job_leaves_the_unpaid_list
    (rejects_NaN : bool) (actor viewer : Profile.t) (job_id now : Z) (s : Store) :
  status (pay rejects_NaN actor job_id now s).1 = 200 →
  ∃ rows,
    get_unpaid_jobs viewer (pay rejects_NaN actor job_id now s).2
    = Response 200 (JobList rows)
    ∧ ∀ J C, (J, C) ∈ rows → Job.id J ≠ job_id.
Proof.
  intros Hstatus. eexists. split; [reflexivity|].
  intros J C HJC Hid. unfold unpaid_rows in HJC.
  apply list_elem_of_bind in HJC as (j & HJC & [Hunpaid Hj]%list_elem_of_filter).
  apply list_elem_of_bind in HJC as (c & [= -> ->]%list_elem_of_singleton & _).
  apply Hunpaid. by eapply pay_success_marks_paid.
Qed.

(** Harry's job of 30 is on his list before he pays it, and not after. *)
Lemma paid_job_leaves_the_unpaid_list_witness :
  get_unpaid_jobs Sample.harry (pay false Sample.harry 1 77 Sample.one_job).2
  = Response 200 (JobList []).
Proof.
  destruct (paid_job_leaves_the_unpaid_list false Sample.harry Sample.harry
              1 77 Sample.one_job eq_refl) as (rows & Hrows & _).
  rewrite Hrows. vm_compute in Hrows. injection Hrows as <-. reflexivity.
Defined.

Section PayStatus.

Lemma bind_fmap_comm {A B} (f g : A → list B) (k : B → B) (l : list A) :
  (∀ x, g x = k <$> f x) → l ≫= g = k <$> (l ≫= f).
Proof.
  intros Hg. induction l as [|x l IH]; [done|].
  cbn. by rewrite fmap_app, Hg, IH.
Qed.

Lemma filter_fmap_bind_comm {A B} (P : A → Prop) `{!∀ x, Decision (P x)}
    (h : A → A) (f g : A → list B) (k : B → B) (l : list A) :
  (∀ x, P (h x) ↔ P x) →
  (∀ x, g (h x) = k <$> f x) →
  filter P (h <$> l) ≫= g = k <$> (filter P l ≫= f).
Proof.
  intros HP Hg. induction l as [|x l IH]; [done|].
  rewrite fmap_cons, !filter_cons.
  destruct (decide (P (h x))) as [Hhx|Hhx], (decide (P x)) as [Hx|Hx].
  - cbn. by rewrite fmap_app, Hg, IH.
  - destruct (Hx (proj1 (HP x) Hhx)).
  - destruct (Hhx (proj2 (HP x) Hx)).
  - exact IH.
Qed.

Lemma head_fmap {A B} (k : A → B) (l : list A) : head (k <$> l) = k <$> head l.
Proof. by destruct l. Qed.

(** The query of the payment does not look at the status of a contract. *)
Lemma pay_findOne_with_statuses g actor job_id s :
  pay_findOne actor job_id (with_statuses g s)
  = (λ row,
       mkJobRow (row_job row)
         ((λ c, Contract.mk (Contract.id c) (g c) (Contract.ClientId c)
                  (Contract.ContractorId c)) <$> row_Contract row)
         (row_Client row) (row_Contractor row))
    <$> pay_findOne actor job_id s.
Proof.
  unfold pay_findOne. rewrite <- head_fmap. f_equal.
  unfold with_statuses. cbn [jobs contracts].
  apply bind_fmap_comm. intros j.
  by apply filter_fmap_bind_comm.
Qed.

Lemma settled_update_with_statuses g rejects_NaN v pid s :
  Orm.settled (with_statuses g s)
    (Orm.Profile_update rejects_NaN v pid (with_statuses g s))
  = with_statuses g (Orm.settled s (Orm.Profile_update rejects_NaN v pid s)).
Proof. by destruct v, rejects_NaN. Qed.

End PayStatus.

(** X9.  A payment does not look at the status of the contract: with the
    statuses of the contracts replaced in any way (in progress, new or
    terminated), the same request gets the same answer and makes the same
    writes. *)
Theorem pay_ignores_the_contract_status
    (g : Contract.t → contract_status)
    (rejects_NaN : bool) (actor : Profile.t) (job_id now : Z) (s : Store) :
  pay rejects_NaN actor job_id now (with_statuses g s)
  = ((pay rejects_NaN actor job_id now s).1,
     with_statuses g (pay rejects_NaN actor job_id now s).2).
Proof.
  unfold pay. rewrite pay_findOne_with_statuses.
  destruct (pay_findOne actor job_id s) as [row|]; [|done].
  cbn [fmap option_fmap option_map row_job row_Client row_Contractor].
  destruct (Job.paid (row_job row)); [done|].
  destruct (row_Client row) as [client|]; [|done].
  destruct (JS.gt _ _); [done|].
  destruct (row_Contractor row) as [contractor|]; [|done].
  cbn [fst snd]. by rewrite !settled_update_with_statuses.
Qed.

(** X22.  A client whose balance is NULL cannot pay a job whose price is
    above zero: [job.price > null] holds, the request is answered 400
    ['Insufficient funds'] and nothing is written.  This is where a
    deposit that charged two jobs or more leaves its caller. *)
Theorem pay_with_a_null_balance_is_refused
    (rejects_NaN : bool) (actor : Profile.t) (job_id now : Z) (s : Store)
    (row : JobRow) (client : Profile.t) :
  pay_findOne actor job_id s = Some row →
  Job.paid (row_job row) = false →
  row_Client row = Some client →
  Profile.balance client = JS.NaN →
  (0 < Job.price (row_job row))%Qc →
  pay rejects_NaN actor job_id now s
  = (Response 400 (Message "Insufficient funds"), s).
Proof.
  intros Hrow Hpaid Hclient Hnull Hprice. unfold pay.
  rewrite Hrow, Hpaid, Hclient, to_number_balance, Hnull.
  cbn [JS.gt]. by rewrite bool_decide_eq_true_2.
Qed.

(** Harry's balance is NULL: his job of 30 is not paid. *)
Lemma pay_with_a_null_balance_is_refused_witness :
  pay false Ledger.harry_without_balance 1 77 Ledger.null_balance
  = (Response 400 (Message "Insufficient funds"), Ledger.null_balance).
Proof.
  apply (pay_with_a_null_balance_is_refused false
           Ledger.harry_without_balance 1 77 Ledger.null_balance
           (mkJobRow (Sample.unpaid_job 1 30 1)
              (Some (Contract.mk 1 in_progress 1 3))
              (Some Ledger.harry_without_balance) (Some Sample.linus))
           Ledger.harry_without_balance).
  - reflexivity.
  - reflexivity.
  - reflexivity.
  - reflexivity.
  - apply (bool_decide_unpack _). vm_compute. exact I.
Defined.

(** ** More on deposits *)

Section DepositShape.

(** Every candidate of a deposit is a job of the store, and carries the
    profiles of the caller and of the contractor named in the path. *)
Lemma deposit_findAll_row actor userId s row :
  row ∈ deposit_findAll actor userId s →
  row_job row ∈ jobs s
  ∧ row_Client row = Orm.Profile_by_id s (Profile.id actor)
  ∧ row_Contractor row = Orm.Profile_by_id s userId.
Proof.
  unfold deposit_findAll. intros Hrow.
  apply list_elem_of_bind in Hrow as (j & Hrow & [_ Hj]%list_elem_of_filter).
  apply list_elem_of_bind in Hrow as (c & ->%list_elem_of_singleton & Hc).
  apply list_elem_of_filter in Hc as [(_ & <- & <- & _) _].
  done.
Qed.

Lemma deposit_loop_skips_prefix
    rejects_NaN actor n skipped rest b totalPaid totalJobsPaid s :
  JS.to_number (Orm.balance actor) = JS.Num b →
  Forall (λ job, (b < depositAmount job)%Qc) skipped →
  deposit_loop rejects_NaN actor n (skipped ++ rest) (Instance actor)
    totalPaid totalJobsPaid s
  = deposit_loop rejects_NaN actor n rest (Instance actor)
      totalPaid totalJobsPaid s.
Proof.
  intros Hb Hskipped.
  induction Hskipped as [|job skipped Hjob _ IH]; [done|].
  cbn [app deposit_loop balance_of]. rewrite Hb.
  cbn [JS.gt]. by rewrite bool_decide_eq_true_2.
Qed.

Lemma is_Some_Profile_by_id_set_balance v pid s q :
  is_Some (Orm.Profile_by_id s q) →
  is_Some (Orm.Profile_by_id (Orm.set_balance v pid s) q).
Proof.
  intros [p Hp]. rewrite Profile_by_id_set_balance, Hp. by eexists.
Qed.

(** The persistence layer takes every number. *)
Lemma Profile_update_Num rejects_NaN x pid s :
  Orm.Profile_update rejects_NaN (JS.Num x) pid s
  = Resolved
      (AffectedCount (length (filter (λ p, Profile.id p = pid) (profiles s))),
       Orm.set_balance (JS.Num x) pid s).
Proof. by destruct rejects_NaN. Qed.

(** The first job the loop charges: the caller's balance covers its
    deposit.  The caller is debited, the contractor credited on the
    balance the query loaded, the job marked, and the loop goes on with
    the result of the update in [profile]. *)
Lemma deposit_loop_first_charge
    rejects_NaN actor n job rest b contractor c0 totalPaid totalJobsPaid s :
  JS.to_number (Orm.balance actor) = JS.Num b →
  (depositAmount job ≤ b)%Qc →
  row_Contractor job = Some contractor →
  JS.to_number (Orm.balance contractor) = JS.Num c0 →
  deposit_loop rejects_NaN actor n (job :: rest) (Instance actor)
    totalPaid totalJobsPaid s
  = deposit_loop rejects_NaN actor n rest
      (UpdateResult
         (AffectedCount
            (length (filter (λ p, Profile.id p = Profile.id actor)
                            (profiles s)))))
      (JS.round (totalPaid + depositAmount job)) (S totalJobsPaid)
      (Orm.Job_update Job.with_depositPaid (Job.id (row_job job))
         (Orm.set_balance (JS.Num (JS.round (c0 + depositAmount job)))
            (Profile.id contractor)
            (Orm.set_balance (JS.Num (JS.round (b - depositAmount job)))
               (Profile.id actor) s))).
Proof.
  intros Hb Hle Hcontractor Hc0.
  cbn [deposit_loop balance_of]. rewrite Hb.
  cbn [JS.gt]. rewrite bool_decide_eq_false_2 by by apply Qcle_not_lt.
  cbn [JS.sub]. rewrite Profile_update_Num, Hcontractor, Hc0.
  cbn [JS.add]. by rewrite Profile_update_Num.
Qed.

(** What is left of the contractor's balance once the loop runs on the
    result of an update: the balance the query loaded plus the deposit
    of the last job. *)
Lemma deposit_loop_last_credit
    actor userId n rows final r totalPaid totalJobsPaid s contractor c0 :
  Forall (λ job, row_Contractor job = Some contractor) (rows ++ [final]) →
  Profile.id contractor = userId →
  JS.to_number (Orm.balance contractor) = JS.Num c0 →
  is_Some (Orm.Profile_by_id s userId) →
  balance_in (deposit_loop false actor n (rows ++ [final]) (UpdateResult r)
                totalPaid totalJobsPaid s).2 userId
  = Some (JS.Num (JS.round (c0 + depositAmount final))).
Proof.
  intros Hrows Hid Hc0. revert r totalPaid totalJobsPaid s.
  induction rows as [|job rows IH]; intros r totalPaid totalJobsPaid s Hu.
  - cbn [app] in Hrows. apply Forall_cons in Hrows as [Hfinal _].
    cbn [app deposit_loop balance_of JS.to_number JS.gt JS.sub
           Orm.Profile_update].
    rewrite Hfinal, Hc0, Hid.
    cbn [JS.add Orm.Profile_update Orm.settled snd].
    rewrite balance_in_Job_update. apply balance_in_set_balance_eq.
    by apply is_Some_Profile_by_id_set_balance.
  - cbn [app] in Hrows. apply Forall_cons in Hrows as [Hjob Hrows].
    cbn [app deposit_loop balance_of JS.to_number JS.gt JS.sub
           Orm.Profile_update].
    rewrite Hjob, Hc0, Hid.
    cbn [JS.add Orm.Profile_update Orm.settled].
    apply IH; [done|].
    by do 2 apply is_Some_Profile_by_id_set_balance.
Qed.

End DepositShape.

(** X10.  A deposit on a single candidate job that the caller's balance
    covers moves a quarter of its price.  With [d] that quarter, [b] the
    caller's balance and [c0] the contractor's as the query loaded them:
    the answer is 200 with [jobs = 1], [paid] the double [0 + d] and
    [totalJobsPaid = 1]; the caller's balance becomes the double nearest
    to [b - d], the contractor's the double nearest to [c0 + d]; the job
    is in the store with [depositPaid] true, and no job with its id is
    left without it. *)
Theorem deposit_single_job_moves_a_quarter
    (rejects_NaN : bool) (actor : Profile.t) (userId : Z) (s : Store)
    (row : JobRow) (contractor : Profile.t) (b c0 : Qc) :
  deposit_findAll actor userId s = [row] →
  JS.to_number (Orm.balance actor) = JS.Num b →
  (depositAmount row ≤ b)%Qc →
  row_Contractor row = Some contractor →
  JS.to_number (Orm.balance contractor) = JS.Num c0 →
  Profile.id actor ≠ userId →
  is_Some (Orm.Profile_by_id s (Profile.id actor)) →
  (depositAmount row = Qc_of_Z 25 / Qc_of_Z 100 * Job.price (row_job row))%Qc
  ∧ (deposit rejects_NaN actor userId s).1
    = Response 200 (DepositPaid 1 (JS.round (0 + depositAmount row)) 1)
  ∧ balance_in (deposit rejects_NaN actor userId s).2 (Profile.id actor)
    = Some (JS.Num (JS.round (b - depositAmount row)))
  ∧ balance_in (deposit rejects_NaN actor userId s).2 userId
    = Some (JS.Num (JS.round (c0 + depositAmount row)))
  ∧ (∃ j, j ∈ jobs (deposit rejects_NaN actor userId s).2
          ∧ Job.id j = Job.id (row_job row)
          ∧ Job.price j = Job.price (row_job row)
          ∧ Job.depositPaid j = true)
  ∧ ∀ j, j ∈ jobs (deposit rejects_NaN actor userId s).2 →
         Job.id j = Job.id (row_job row) → Job.depositPaid j = true.
Proof.
  intros Hrows Hb Hle Hcontractor Hc0 Hne Hactor.
  split; [done|].
  assert (Hrow : row ∈ deposit_findAll actor userId s)
    by (rewrite Hrows; apply list_elem_of_singleton; done).
  apply deposit_findAll_row in Hrow as (Hjob & _ & Hco).
  rewrite Hcontractor in Hco. symmetry in Hco.
  destruct (Profile_by_id_Some _ _ _ Hco) as [Hid _].
  unfold deposit. rewrite Hrows. cbn [length]. rewrite decide_False by done.
  rewrite (deposit_loop_first_charge _ _ _ _ _ b contractor c0) by done.
  rewrite Hid. cbn [deposit_loop fst snd].
  split; [done|]. split; [|split; [|split]].
  - rewrite balance_in_Job_update, balance_in_set_balance_ne by done.
    by apply balance_in_set_balance_eq.
  - rewrite balance_in_Job_update. apply balance_in_set_balance_eq.
    apply is_Some_Profile_by_id_set_balance. by eexists.
  - exists (Job.with_depositPaid (row_job row)). split; [|done].
    apply Job_update_elem_of. exists (row_job row).
    by rewrite decide_True.
  - intros j (j0 & _ & ->)%Job_update_elem_of Hj.
    case_decide; [done|]. congruence.
Qed.

(** Harry deposits on his one job of 30: 7.5 go from his 40 to Linus, and
    job 1 is marked. *)
Lemma deposit_single_job_moves_a_quarter_witness :
  (deposit false Sample.harry 3 Sample.one_job).1
  = Response 200
      (DepositPaid 1
         (JS.round
            (0 + depositAmount
                   (mkJobRow (Sample.unpaid_job 1 30 1)
                      (Some (Contract.mk 1 in_progress 1 3))
                      (Some Sample.harry) (Some Sample.linus)))) 1).
Proof.
  pose proof
    (deposit_single_job_moves_a_quarter false Sample.harry 3 Sample.one_job
       (mkJobRow (Sample.unpaid_job 1 30 1)
          (Some (Contract.mk 1 in_progress 1 3))
          (Some Sample.harry) (Some Sample.linus))
       Sample.linus (Sample.amount 40) (Sample.amount 0)
       eq_refl eq_refl)
    as Hdeposit.
  destruct Hdeposit as (_ & Hresponse & _).
  - vm_compute. discriminate.
  - reflexivity.
  - reflexivity.
  - vm_compute. discriminate.
  - vm_compute. by eexists.
  - exact Hresponse.
Defined.

(** X11.  Where the persistence layer takes what it is given, a deposit
    passes over the leading candidates whose deposit exceeds the caller's
    balance and, from the first candidate it can charge, charges every
    remaining one whatever its price: the answer is 200 with
    [totalJobsPaid] their number and [paid] their deposits added to 0 one
    after the other, each sum rounded as it is made. *)
Theorem deposit_charges_every_job_after_the_first
    (actor : Profile.t) (userId : Z) (s : Store)
    (skipped rest : list JobRow) (first : JobRow) (b : Qc) :
  deposit_findAll actor userId s = skipped ++ first :: rest →
  JS.to_number (Orm.balance actor) = JS.Num b →
  Forall (λ job, (b < depositAmount job)%Qc) skipped →
  (depositAmount first ≤ b)%Qc →
  is_Some (Orm.Profile_by_id s userId) →
  (deposit false actor userId s).1
  = Response 200
      (DepositPaid (length (skipped ++ first :: rest))
         (foldl (λ total job, JS.round (total + depositAmount job)) 0%Qc
            (first :: rest))
         (S (length rest))).
Proof.
  intros Hrows Hb Hskipped Hle [contractor Hcontractor].
  assert (Hloaded : Forall (λ job, row_Contractor job = Some contractor)
                      (skipped ++ first :: rest)).
  { rewrite <- Hrows. apply Forall_forall. intros row Hrow.
    apply deposit_findAll_row in Hrow as (_ & _ & ->). done. }
  apply Forall_app in Hloaded as [_ Hloaded].
  apply Forall_cons in Hloaded as [Hfirst Hrest].
  destruct (JS.to_number (Orm.balance contractor)) as [c0|] eqn:Hc0;
    [|by rewrite to_number_balance in Hc0;
         destruct (Profile.balance contractor)].
  unfold deposit. rewrite Hrows.
  rewrite decide_False by (rewrite length_app; cbn; lia).
  rewrite (deposit_loop_skips_prefix _ _ _ _ _ b) by done.
  rewrite (deposit_loop_first_charge _ _ _ _ _ b contractor c0) by done.
  rewrite deposit_loop_after_an_update.
  - done.
  - eapply Forall_impl; [exact Hrest|]. intros job ->. by eexists.
Qed.

(** Harry has 40 and three jobs of 100: the first deposit of 25 is
    covered, and all three are charged: 75 are reported. *)
Lemma deposit_charges_every_job_after_the_first_witness :
  (deposit false Sample.harry 3 Sample.three_jobs).1
  = Response 200
      (DepositPaid 3
         (foldl (λ total job, JS.round (total + depositAmount job)) 0%Qc
            (deposit_findAll Sample.harry 3 Sample.three_jobs)) 3).
Proof.
  apply (deposit_charges_every_job_after_the_first Sample.harry 3
           Sample.three_jobs []
           (tail (deposit_findAll Sample.harry 3 Sample.three_jobs))
           (mkJobRow (Sample.unpaid_job 1 100 1)
              (Some (Contract.mk 1 in_progress 1 3))
              (Some Sample.harry) (Some Sample.linus))
           (Sample.amount 40)).
  - reflexivity.
  - reflexivity.
  - constructor.
  - vm_compute. discriminate.
  - vm_compute. by eexists.
Defined.

(** X12.  Where the persistence layer takes what it is given and a
    deposit charges two jobs or more, the contractor is credited the
    deposit of the last job only: every credit is computed from the
    balance the query loaded, so the last one overwrites the others.  The
    contractor ends with the double nearest to that balance plus the
    last deposit. *)
Theorem deposit_credits_the_last_job_only
    (actor : Profile.t) (userId : Z) (s : Store)
    (skipped middle : list JobRow) (first final : JobRow)
    (contractor : Profile.t) (b c0 : Qc) :
  deposit_findAll actor userId s = skipped ++ first :: middle ++ [final] →
  JS.to_number (Orm.balance actor) = JS.Num b →
  Forall (λ job, (b < depositAmount job)%Qc) skipped →
  (depositAmount first ≤ b)%Qc →
  Orm.Profile_by_id s userId = Some contractor →
  JS.to_number (Orm.balance contractor) = JS.Num c0 →
  balance_in (deposit false actor userId s).2 userId
  = Some (JS.Num (JS.round (c0 + depositAmount final))).
Proof.
  intros Hrows Hb Hskipped Hle Hcontractor Hc0.
  assert (Hloaded : Forall (λ job, row_Contractor job = Some contractor)
                      (skipped ++ first :: middle ++ [final])).
  { rewrite <- Hrows. apply Forall_forall. intros row Hrow.
    apply deposit_findAll_row in Hrow as (_ & _ & ->). done. }
  apply Forall_app in Hloaded as [_ Hloaded].
  apply Forall_cons in Hloaded as [Hfirst Hrest].
  destruct (Profile_by_id_Some _ _ _ Hcontractor) as [Hid _].
  unfold deposit. rewrite Hrows.
  rewrite decide_False by (rewrite length_app; cbn; lia).
  rewrite (deposit_loop_skips_prefix _ _ _ _ _ b) by done.
  rewrite (deposit_loop_first_charge _ _ _ _ _ b contractor c0) by done.
  apply (deposit_loop_last_credit _ _ _ _ _ _ _ _ _ contractor);
    try done.
  rewrite Hid. do 2 apply is_Some_Profile_by_id_set_balance. by eexists.
Qed.

(** Harry has 100 and two jobs of 40 and 80: deposits of 10 and 20 are
    charged, and Linus ends with 20. *)
Lemma deposit_credits_the_last_job_only_witness :
  balance_in (deposit false Ledger.rich_harry 3 Ledger.two_prices).2 3
  = Some (JS.Num
            (JS.round
               (Sample.amount 0
                + depositAmount
                    (mkJobRow (Sample.unpaid_job 2 80 1)
                       (Some (Contract.mk 1 in_progress 1 3))
                       (Some Ledger.rich_harry) (Some Sample.linus))))).
Proof.
  apply (deposit_credits_the_last_job_only Ledger.rich_harry 3
           Ledger.two_prices [] []
           (mkJobRow (Sample.unpaid_job 1 40 1)
              (Some (Contract.mk 1 in_progress 1 3))
              (Some Ledger.rich_harry) (Some Sample.linus))
           (mkJobRow (Sample.unpaid_job 2 80 1)
              (Some (Contract.mk 1 in_progress 1 3))
              (Some Ledger.rich_harry) (Some Sample.linus))
           Sample.linus (Sample.amount 100) (Sample.amount 0)).
  - reflexivity.
  - reflexivity.
  - constructor.
  - vm_compute. discriminate.
  - reflexivity.
  - reflexivity.
Defined.

(** ** What no sequence of payments and deposits does *)

Section Evolution.

Lemma job_evolves_refl j : job_evolves j j.
Proof. by unfold job_evolves. Qed.

Lemma job_evolves_trans j1 j2 j3 :
  job_evolves j1 j2 → job_evolves j2 j3 → job_evolves j1 j3.
Proof.
  unfold job_evolves.
  intros (? & ? & ? & ? & ?) (? & ? & ? & ? & ?).
  repeat split; try congruence; auto.
Qed.

Lemma profile_evolves_trans p1 p2 p3 :
  profile_evolves p1 p2 → profile_evolves p2 p3 → profile_evolves p1 p3.
Proof.
  unfold profile_evolves.
  intros (? & ? & ? & ? & ?) (? & ? & ? & ? & ?).
  repeat split; congruence.
Qed.

Lemma store_evolves_refl s : store_evolves s s.
Proof.
  split; [done|]. split; apply Forall2_same.
  - apply job_evolves_refl.
  - by intros p.
Qed.

Lemma store_evolves_trans s1 s2 s3 :
  store_evolves s1 s2 → store_evolves s2 s3 → store_evolves s1 s3.
Proof.
  intros (Hc12 & Hj12 & Hp12) (Hc23 & Hj23 & Hp23).
  split; [congruence|]. split.
  - eapply Forall2_trans; [apply job_evolves_trans|done|done].
  - eapply Forall2_trans; [apply profile_evolves_trans|done|done].
Qed.

Lemma settled_update_store_evolves rejects_NaN v pid s :
  store_evolves s (Orm.settled s (Orm.Profile_update rejects_NaN v pid s)).
Proof.
  split; [apply settled_update_contracts|]. split.
  - rewrite settled_update_jobs. apply Forall2_same, job_evolves_refl.
  - apply settled_update_evolves.
Qed.

Lemma Job_update_store_evolves f jid s :
  (∀ j, job_evolves j (f j)) →
  store_evolves s (Orm.Job_update f jid s).
Proof.
  intros Hf. split; [done|]. split.
  - unfold Orm.Job_update. cbn [jobs]. apply Forall2_fmap_same.
    intros j. case_decide; [apply Hf|apply job_evolves_refl].
  - apply Forall2_same. by intros p.
Qed.

Lemma with_payment_evolves now j : job_evolves j (Job.with_payment now j).
Proof. by unfold job_evolves. Qed.

Lemma with_depositPaid_evolves j : job_evolves j (Job.with_depositPaid j).
Proof. by unfold job_evolves. Qed.

Lemma pay_store_evolves rejects_NaN actor job_id now s :
  store_evolves s (pay rejects_NaN actor job_id now s).2.
Proof.
  unfold pay.
  repeat (case_match; try apply store_evolves_refl). cbn [snd].
  eapply store_evolves_trans; [apply settled_update_store_evolves|].
  eapply store_evolves_trans; [apply settled_update_store_evolves|].
  apply Job_update_store_evolves, with_payment_evolves.
Qed.

Lemma deposit_loop_store_evolves
    rejects_NaN actor n rows profile totalPaid totalJobsPaid s :
  store_evolves s
    (deposit_loop rejects_NaN actor n rows profile
       totalPaid totalJobsPaid s).2.
Proof.
  revert profile totalPaid totalJobsPaid s.
  induction rows as [|job rows IH]; intros profile totalPaid totalJobsPaid s;
    [apply store_evolves_refl|].
  cbn [deposit_loop].
  destruct (JS.gt _ _); [apply IH|].
  pose proof (settled_update_store_evolves rejects_NaN
                (JS.sub (JS.to_number (balance_of profile))
                   (JS.Num (depositAmount job)))
                (Profile.id actor) s) as Hfirst.
  destruct (Orm.Profile_update _ _ _ _) as [[r s1]|e];
    [|apply store_evolves_refl].
  cbn [Orm.settled] in Hfirst.
  destruct (row_Contractor job) as [contractor|]; [|exact Hfirst].
  eapply store_evolves_trans; [exact Hfirst|].
  eapply store_evolves_trans; [|apply IH].
  eapply store_evolves_trans; [apply settled_update_store_evolves|].
  apply Job_update_store_evolves, with_depositPaid_evolves.
Qed.

Lemma deposit_store_evolves rejects_NaN actor userId s :
  store_evolves s (deposit rejects_NaN actor userId s).2.
Proof.
  unfold deposit. case_decide; [apply store_evolves_refl|].
  apply deposit_loop_store_evolves.
Qed.

End Evolution.

(** X13.  No sequence of payments and deposits creates, deletes or
    reorders a row.  The contracts are never written; of a job only the
    flags and the payment date change, and a flag that is set ([paid],
    [depositPaid]) is never cleared; of a profile only the balance
    changes. *)
Theorem run_only_sets_flags_and_balances
    (rejects_NaN : bool) (rs : list request) (s : Store) :
  contracts (run rejects_NaN rs s) = contracts s
  ∧ Forall2 (λ j j',
       Job.id j' = Job.id j
       ∧ Job.price j' = Job.price j
       ∧ Job.ContractId j' = Job.ContractId j
       ∧ (Job.paid j = true → Job.paid j' = true)
       ∧ (Job.depositPaid j = true → Job.depositPaid j' = true))
      (jobs s) (jobs (run rejects_NaN rs s))
  ∧ Forall2 (λ p p',
       Profile.id p' = Profile.id p
       ∧ Profile.firstName p' = Profile.firstName p
       ∧ Profile.lastName p' = Profile.lastName p
       ∧ Profile.profession p' = Profile.profession p
       ∧ Profile.type p' = Profile.type p)
      (profiles s) (profiles (run rejects_NaN rs s)).
Proof.
  change (store_evolves s (run rejects_NaN rs s)).
  unfold run. revert s.
  induction rs as [|r rs IH]; intros s; [apply store_evolves_refl|].
  cbn [foldl]. eapply store_evolves_trans; [|apply IH].
  destruct r as [actor job_id now|actor userId]; cbn [handle].
  - apply pay_store_evolves.
  - apply deposit_store_evolves.
Qed.

(** ** More on the best-clients report *)

Section BestClients.

Context (forgiving : string → Moment.t).

Lemma to_entries_Resolved rows entries :
  to_entries rows = Resolved entries →
  Forall2 (λ row e, to_entry row = Resolved e) rows entries.
Proof.
  revert entries. induction rows as [|row rows IH]; intros entries.
  - intros [= <-]. constructor.
  - cbn [to_entries].
    destruct (to_entry row) as [e|] eqn:He; [|discriminate].
    destruct (to_entries rows) as [es|]; [|discriminate].
    intros [= <-]. constructor; [done|]. by apply IH.
Qed.

(** With a [start] in the format the report runs its query, whatever
    [end] is. *)
Lemma best_clients_runs q s :
  truthy (start q) = true →
  validateDate (to_string (start q)) = true →
  best_clients forgiving q s
  = match to_entries
            (take (default 2%nat (limit q))
               (order_by_price_desc
                  (group_by_price
                     (paid_in_range (moment forgiving (start q))
                        (moment forgiving (end_ q)) s)))) with
    | Resolved entries => Response 200 (ClientList entries)
    | Rejected e => Response 400 (ErrorMessage e)
    end.
Proof.
  intros Hstart Hvalid. unfold best_clients. rewrite Hstart, Hvalid.
  by destruct (limit q).
Qed.

(** A row of the grouped, ordered and cut result is one of the paid jobs
    in range, with the sum of the prices of the jobs of its price. *)
Lemma best_clients_row n rows row :
  row ∈ take n (order_by_price_desc (group_by_price rows)) →
  row.1 ∈ rows
  ∧ row.2 = foldr Qcplus 0%Qc
              ((Job.price ∘ row_job)
               <$> filter (λ r, Job.price (row_job r)
                                = Job.price (row_job row.1)) rows).
Proof.
  intros Hrow.
  pose proof (elem_of_sublist _ _ _ Hrow (sublist_take _ _)) as Hrow'.
  clear Hrow. rename Hrow' into Hrow.
  unfold order_by_price_desc in Hrow.
  rewrite merge_sort_Permutation in Hrow.
  unfold group_by_price in Hrow.
  apply list_elem_of_omap in Hrow as (p & _ & Hgroup).
  destruct (head _) as [r|] eqn:Hhead; [|discriminate].
  injection Hgroup as <-. cbn [fst snd].
  apply head_Some_elem_of, list_elem_of_filter in Hhead as [<- Hr].
  done.
Qed.

Lemma Forall2_elem_of_r {A B} (R : A → B → Prop) l k y :
  Forall2 R l k → y ∈ k → ∃ x, x ∈ l ∧ R x y.
Proof.
  induction 1 as [|x y' l k HR _ IH]; intros Hy.
  - by apply elem_of_nil in Hy.
  - apply elem_of_cons in Hy as [->|Hy].
    + exists x. split; [by left|done].
    + destruct (IH Hy) as (x' & ? & ?). exists x'. split; [by right|done].
Qed.

(** The prices of a price group of the joined rows are those of the
    jobs. *)
Lemma price_group_of_rows (mk : Job.t → JobRow) (price : Qc) (l : list Job.t) :
  (∀ j, row_job (mk j) = j) →
  (Job.price ∘ row_job)
  <$> filter (λ r, Job.price (row_job r) = price) (mk <$> l)
  = Job.price <$> filter (λ j, Job.price j = price) l.
Proof.
  intros Hmk. induction l as [|j l IH]; [done|].
  rewrite fmap_cons, !filter_cons, Hmk.
  case_decide; [|done]. by rewrite !fmap_cons, IH; cbn; rewrite Hmk.
Qed.

End BestClients.

(** X15.  The best-clients report tests [start] only.  It answers 400
    ['Start / end dates required'] exactly when [start] is missing or
    empty, and 400 ['Invalid dates, ...'] exactly when [start] is given
    and not in the format; whether [end] is given or well-formed plays no
    part in either. *)
Theorem best_clients_tests_start_only
    (forgiving : string → Moment.t) (q : query) (s : Store) :
  (best_clients forgiving q s
   = Response 400 (Message "Start / end dates required")
   ↔ truthy (start q) = false)
  ∧ (best_clients forgiving q s
     = Response 400 (Message "Invalid dates, please use the format MM-DD-YYYY")
     ↔ truthy (start q) = true
       ∧ validateDate (to_string (start q)) = false).
Proof.
  destruct (truthy (start q)) eqn:Hstart.
  - destruct (validateDate (to_string (start q))) eqn:Hvalid.
    + rewrite best_clients_runs by done.
      split; (split; [by case_match|by intros [? ?] || done]).
    + unfold best_clients. rewrite Hstart, Hvalid. cbn.
      split; [split; discriminate|done].
  - unfold best_clients. rewrite Hstart. cbn.
    split; [done|]. split; [discriminate|by intros [? _]].
Qed.

(** X16.  With a [start] in the format and an [end] that reads as a
    date, when no paid job has its payment date between the two bounds
    the report answers 200 with an empty list (where the best-profession
    report answers 404). *)
Theorem best_clients_nothing_in_range
    (forgiving : string → Moment.t) (q : query) (s : Store) :
  truthy (start q) = true →
  validateDate (to_string (start q)) = true →
  Moment.isValid (moment forgiving (end_ q)) = true →
  (∀ j, j ∈ jobs s → Job.paid j = true →
        ¬ between (moment forgiving (start q)) (moment forgiving (end_ q))
            (Job.paymentDate j)) →
  best_clients forgiving q s = Response 200 (ClientList []).
Proof.
  intros Hstart Hvalid _ Hnone.
  rewrite best_clients_runs by done.
  assert (Hrows : paid_in_range (moment forgiving (start q))
                    (moment forgiving (end_ q)) s = []).
  { unfold paid_in_range.
    assert (Hfilter : ∀ l : list Job.t,
              (∀ j, j ∈ l → j ∈ jobs s) →
              filter (λ j, between (moment forgiving (start q))
                             (moment forgiving (end_ q)) (Job.paymentDate j)
                           ∧ Job.paid j = true) l = []).
    { induction l as [|j l IH]; intros Hl; [done|].
      rewrite filter_cons_False.
      - apply IH. intros j' Hj'. apply Hl. by right.
      - intros [Hbetween Hpaid]. apply (Hnone j); [|done|done].
        apply Hl. by left. }
    by rewrite Hfilter. }
  rewrite Hrows. by destruct (limit q) as [[|n]|].
Qed.

(** The jobs of the sample were paid in 2020: nothing for 2019. *)
Lemma best_clients_nothing_in_range_witness :
  best_clients Ledger.no_date Ledger.year_2019_query Sample.year_2020
  = Response 200 (ClientList []).
Proof.
  apply (best_clients_nothing_in_range Ledger.no_date
           Ledger.year_2019_query Sample.year_2020).
  - reflexivity.
  - reflexivity.
  - reflexivity.
  - intros j Hj _ Hbetween.
    repeat (apply elem_of_cons in Hj as [->|Hj]);
      [| | |by apply elem_of_nil in Hj];
      vm_compute in Hbetween; destruct Hbetween as [_ Hend]; by apply Hend.
Defined.

(** X17.  With an [end] that reads as a date, every entry of a 200 of
    the best-clients report names the client of the contract of a paid
    job of the store whose payment date is between the two bounds: its
    [id] is the client's, its [fullName] the client's first and last
    name joined by a space. *)
Theorem best_clients_entries
    (forgiving : string → Moment.t) (q : query) (s : Store)
    (entries : list client_entry) :
  Moment.isValid (moment forgiving (end_ q)) = true →
  best_clients forgiving q s = Response 200 (ClientList entries) →
  Forall (λ e,
     ∃ j c p,
       j ∈ jobs s ∧ Job.paid j = true
       ∧ between (moment forgiving (start q)) (moment forgiving (end_ q))
           (Job.paymentDate j)
       ∧ c ∈ contracts s ∧ Contract.id c = Job.ContractId j
       ∧ Orm.Profile_by_id s (Contract.ClientId c) = Some p
       ∧ entry_id e = Profile.id p
       ∧ fullName e = Profile.firstName p +:+ " " +:+ Profile.lastName p)
    entries.
Proof.
  intros _ Hresponse.
  destruct (truthy (start q)) eqn:Hstart;
    [|unfold best_clients in Hresponse; rewrite Hstart in Hresponse;
      discriminate].
  destruct (validateDate (to_string (start q))) eqn:Hvalid;
    [|unfold best_clients in Hresponse; rewrite Hstart, Hvalid in Hresponse;
      discriminate].
  rewrite best_clients_runs in Hresponse by done.
  destruct (to_entries _) as [entries'|] eqn:Hentries; [|discriminate].
  injection Hresponse as ->.
  apply to_entries_Resolved in Hentries.
  apply Forall_forall. intros e He.
  destruct (Forall2_elem_of_r _ _ _ _ Hentries He) as (row & Hrow & Hentry).
  apply best_clients_row in Hrow as [Hjob _].
  unfold paid_in_range in Hjob.
  apply list_elem_of_fmap in Hjob as (j & Hrow1 & Hj).
  apply list_elem_of_filter in Hj as [[Hbetween Hpaid] Hj].
  unfold to_entry in Hentry. rewrite Hrow1 in Hentry.
  cbn [row_Contract row_Client row_job] in Hentry.
  destruct (head _) as [c|] eqn:Hc; [|discriminate]. cbn in Hentry.
  destruct (Orm.Profile_by_id s (Contract.ClientId c)) as [p|] eqn:Hp;
    [|discriminate].
  injection Hentry as <-.
  apply head_Some_elem_of, list_elem_of_filter in Hc as [Hcid Hc].
  by exists j, c, p.
Qed.

(** The report of 2020 with [limit=1]: its one entry is Ash's, who paid
    a job in 2020. *)
Lemma best_clients_entries_witness :
  ∃ j, j ∈ jobs Sample.year_2020 ∧ Job.paid j = true
       ∧ between (Moment.strict "01-01-2020") (Moment.strict "12-31-2020")
           (Job.paymentDate j).
Proof.
  pose proof
    (best_clients_entries Ledger.no_date Sample.year_2020_query
       Sample.year_2020 [mkEntry 2 "Ash Ketchum" (Sample.amount 300)]
       eq_refl) as Hentries.
  apply Forall_cons in Hentries as [(j & c & p & Hj & Hpaid & Hbetween & _) _].
  - by exists j.
  - apply (bool_decide_unpack _). vm_compute. exact I.
Defined.

(** X19.  A deposit only looks at the caller's own contracts with the
    contractor of the path that are not terminated: when there is none,
    the request is answered 400 ['No Jobs to pay'] and nothing is
    written, whatever jobs the store holds. *)
Theorem deposit_needs_a_live_contract
    (rejects_NaN : bool) (actor : Profile.t) (userId : Z) (s : Store) :
  (∀ c, c ∈ contracts s →
        Contract.ClientId c = Profile.id actor →
        Contract.ContractorId c = userId →
        Contract.status c = terminated) →
  deposit rejects_NaN actor userId s
  = (Response 400 (Message "No Jobs to pay"), s).
Proof.
  intros Hnone. unfold deposit.
  destruct (deposit_findAll actor userId s) as [|row rows] eqn:Hrows; [done|].
  exfalso.
  assert (Hrow : row ∈ deposit_findAll actor userId s)
    by (rewrite Hrows; by left).
  unfold deposit_findAll in Hrow.
  apply list_elem_of_bind in Hrow as (j & Hrow & _).
  apply list_elem_of_bind in Hrow as (c & _ & Hc).
  apply list_elem_of_filter in Hc as [(_ & ? & ? & Hstatus) Hc].
  apply Hstatus. by apply Hnone.
Qed.

(** Harry's only contract with Linus is terminated. *)
Lemma deposit_needs_a_live_contract_witness :
  deposit false Sample.harry 3 Ledger.terminated_contract
  = (Response 400 (Message "No Jobs to pay"), Ledger.terminated_contract).
Proof.
  apply (deposit_needs_a_live_contract false Sample.harry 3
           Ledger.terminated_contract).
  intros c Hc _ _.
  apply list_elem_of_singleton in Hc as ->. reflexivity.
Defined.

(** ** More on date validation *)

(** X20.  [validateDate] accepts the 29th of February of a year (written
    on four digits) exactly when the year is a leap year: divisible by 4
    and not by 100, or divisible by 400. *)
Theorem validateDate_leap_day (y : Z) :
  0 ≤ y ≤ 9999 →
  validateDate (Calendar.render y 2 29) = true
  ↔ (y mod 4 = 0 ∧ y mod 100 ≠ 0) ∨ y mod 400 = 0.
Proof.
  intros Hy. unfold validateDate, Moment.strict.
  rewrite parse_strict_render by lia.
  destruct (Moment.in_range y (2 - 1) 29) eqn:Hrange.
  - apply in_range_valid in Hrange as (_ & _ & _ & Hlen); [|done].
    split; [intros _|done].
    unfold Calendar.month_length in Hlen. by case_decide; [|lia].
  - split; [discriminate|]. intros Hleap. exfalso.
    assert (Hvalid : Calendar.valid_date y 2 29).
    { unfold Calendar.valid_date, Calendar.month_length.
      rewrite decide_True by done. lia. }
    apply in_range_valid in Hvalid; [congruence|done].
Qed.

(** 2000 is a leap year. *)
Lemma validateDate_leap_day_witness : validateDate "02-29-2000" = true.
Proof.
  apply (validateDate_leap_day 2000); [lia|].
  right. reflexivity.
Defined.

(** X21.  Every string [validateDate] accepts has exactly ten characters,
    with a dash in third and in sixth place. *)
Theorem validateDate_shape (date : string) :
  validateDate date = true →
  String.length date = 10%nat
  ∧ String.get 2 date = Some "-"%char
  ∧ String.get 5 date = Some "-"%char.
Proof.
  unfold validateDate, Moment.strict.
  destruct (Moment.parse_strict _ _ _) as [a|] eqn:Hparse; [|discriminate].
  apply parse_strict_inv in Hparse as (y & m & d & _ & -> & _).
  intros _. done.
Qed.

Lemma validateDate_shape_witness : String.length "02-29-2020" = 10%nat.
Proof. apply (validateDate_shape "02-29-2020"). reflexivity. Defined.
